(** * The log writer of LevelDB (db/log_writer.cc)

    A shallow embedding of [leveldb::log::Writer]: the two constructors,
    [AddRecord] and [EmitPhysicalRecord], together with the properties of the
    block framing that the format description states about them.

    Conventions.
    - Integers of the C++ code are values of [Z]; casts to [char] are written
      with their reduction modulo 256.
    - A [Slice(ptr, n)] is the list of the [n] bytes at [ptr].
    - [assert] aborts the program: a computation has an [outcome], which is a
      normal return or an assertion failure.
    - The [do ... while] loop of [AddRecord] is a recursion on an iteration
      bound; the bound is never reached ([AddRecord_history_fuel]).
    - The loop returns, besides the status, the list of what it handed to
      [EmitPhysicalRecord] (the history of the call); [AddRecord] drops it.
    - The destination file, the status type and the CRC32C primitive are
      interfaces whose implementations are outside of this file; they are
      type classes here. A file that records the calls made on it shows what
      the writer hands to the file. *)

From Stdlib Require Import ZArith List Lia Bool.
From Stdlib Require Import Strings.Byte.
Import ListNotations.
Local Open Scope Z_scope.

Set Implicit Arguments.

(** ** Bytes and fixed-width encodings *)

Module Coding.

(** [static_cast<char>(z)]: the low 8 bits of [z]. *)
Definition char_of_Z (z : Z) : byte :=
  match Byte.of_N (Z.to_N (z mod 256)) with
  | Some b => b
  | None => x00
  end.

(** The value of a byte read as [unsigned char]. *)
Definition Z_of_char (b : byte) : Z := Z.of_N (Byte.to_N b).

(** Modelled from the spec: [EncodeFixed32] of util/coding.h is not among
    the sources; the format description says that the checksum is encoded
    into bytes 0-3 of the header, little-endian. *)
Definition EncodeFixed32 (value : Z) : list byte :=
  [ char_of_Z value;
    char_of_Z (Z.shiftr value 8);
    char_of_Z (Z.shiftr value 16);
    char_of_Z (Z.shiftr value 24) ].

(** The number that a sequence of bytes denotes, low byte first. *)
Fixpoint DecodeLE (bs : list byte) : Z :=
  match bs with
  | [] => 0
  | b :: bs' => Z_of_char b + 256 * DecodeLE bs'
  end.

End Coding.
Import Coding.

(** ** The record format (db/log_format.h) *)

(** Modelled from the spec: the five record types of the format. *)
Inductive RecordType : Type :=
| kZeroType     (* reserved for preallocated files *)
| kFullType
| kFirstType
| kMiddleType
| kLastType.

(** Modelled from the spec: the header db/log_format.h is not among the
    sources. The format description gives the type codes 0 (reserved),
    1 = Full, 2 = First, 3 = Middle, 4 = Last. *)
Definition RecordType_code (t : RecordType) : Z :=
  match t with
  | kZeroType => 0
  | kFullType => 1
  | kFirstType => 2
  | kMiddleType => 3
  | kLastType => 4
  end.

(** Modelled from the spec: the table of type checksums has an entry for
    each type code from 0 to the largest one, which is the code of
    [kLastType]. *)
Definition kMaxRecordType : Z := RecordType_code kLastType.

(** Modelled from the spec: a block is 32768 bytes. *)
Definition kBlockSize : Z := 32768.

(** Modelled from the spec: a header is 7 bytes, as the [static_assert] of
    [AddRecord] repeats. *)
Definition kHeaderSize : Z := 7.

(** ** The interfaces the writer is built on *)

(** [leveldb::Status]: only [ok()] is used by the writer. *)
Class StatusOps (Status : Type) : Type :=
  { ok : Status -> bool }.

(** [leveldb::WritableFile]: a sequential file. The writer holds a pointer to
    it; here the state of the file is passed in and returned. *)
Class WritableFile (Status File : Type) : Type :=
  { Append : File -> list byte -> Status * File;
    Flush : File -> Status * File }.

(** [leveldb::crc32c]: checksums are values of [uint32_t]. *)
Class Crc32c : Type :=
  { Value : list byte -> Z;
    Extend : Z -> list byte -> Z;
    Mask : Z -> Z;
    Mask_range : forall crc, 0 <= Mask crc < 2 ^ 32 }.

(** ** Outcomes *)

Inductive outcome (A : Type) : Type :=
| Ret (a : A)       (* the call returns *)
| AssertFailed      (* an [assert] does not hold: the program aborts *)
| OutOfFuel.        (* the iteration bound of the model is used up *)

Arguments AssertFailed {A}.
Arguments OutOfFuel {A}.

Definition bind {A B : Type} (m : outcome A) (k : A -> outcome B) : outcome B :=
  match m with
  | Ret a => k a
  | AssertFailed => AssertFailed
  | OutOfFuel => OutOfFuel
  end.

Definition assert (b : bool) : outcome unit :=
  if b then Ret tt else AssertFailed.

Definition outcome_map {A B : Type} (f : A -> B) (m : outcome A) : outcome B :=
  match m with
  | Ret a => Ret (f a)
  | AssertFailed => AssertFailed
  | OutOfFuel => OutOfFuel
  end.

Declare Scope outcome_scope.
Delimit Scope outcome_scope with outcome.
Notation "x <- m ;; k" := (bind m (fun x => k))
  (at level 61, m at next level, right associativity) : outcome_scope.
Notation "' p <- m ;; k" := (bind m (fun x => match x with p => k end))
  (at level 61, p pattern, m at next level, right associativity) : outcome_scope.
Notation "'assert!' b ;; k" := (bind (assert b) (fun _ => k))
  (at level 61, b at next level, right associativity) : outcome_scope.
Local Open Scope outcome_scope.

(** ** The writer *)

Section LogWriter.

Context {Status : Type} {SO : StatusOps Status}.
Context {File : Type} {WF : WritableFile Status File}.
Context {CRC : Crc32c}.

(** The members of [log::Writer]. [block_offset_], the number of bytes
    written in the current block, is declared in db/log_writer.h; it is kept
    as an integer here. The statements below are about writers with
    [0 <= block_offset_], and the theorem on the assertions shows that the
    cursor stays between 0 and [kBlockSize], where no arithmetic of the code
    on it can wrap. *)
Record Writer : Type :=
  { dest_ : File;
    block_offset_ : Z;
    type_crc_ : list Z }.

(** [InitTypeCrc]: entry [i] is the checksum of the single byte [i], for
    [i] from 0 to [kMaxRecordType]. *)
Definition InitTypeCrc : list Z :=
  map (fun i : nat => Value [char_of_Z (Z.of_nat i)])
      (seq 0 (Z.to_nat (kMaxRecordType + 1))).

(** [type_crc_[t]] *)
Definition type_crc_at (w : Writer) (t : RecordType) : Z :=
  nth (Z.to_nat (RecordType_code t)) (type_crc_ w) 0.

(** [Writer::Writer(WritableFile* dest)] *)
Definition Writer_new (dest : File) : Writer :=
  {| dest_ := dest; block_offset_ := 0; type_crc_ := InitTypeCrc |}.

(** [Writer::Writer(WritableFile* dest, uint64_t dest_length)] *)
Definition Writer_resume (dest : File) (dest_length : Z) : Writer :=
  {| dest_ := dest;
     block_offset_ := dest_length mod kBlockSize;
     type_crc_ := InitTypeCrc |}.

(** [Writer::EmitPhysicalRecord(t, ptr, length)]; [data] is the slice of
    the [length] bytes at [ptr]. *)
Definition EmitPhysicalRecord (w : Writer) (t : RecordType) (data : list byte)
  : outcome (Status * Writer) :=
  let length := Z.of_nat (List.length data) in
  assert! (length <=? 65535) ;;
  assert! (block_offset_ w + kHeaderSize + length <=? kBlockSize) ;;
  (* Format the header *)
  let buf4 := char_of_Z (Z.land length 255) in
  let buf5 := char_of_Z (Z.shiftr length 8) in
  let buf6 := char_of_Z (RecordType_code t) in
  (* Compute the crc of the record type and the payload. *)
  let crc := Extend (type_crc_at w t) data in
  let crc := Mask crc in
  let buf := EncodeFixed32 crc ++ [buf4; buf5; buf6] in
  (* Write the header and the payload *)
  let (s, d) := Append (dest_ w) buf in
  let (s, d) :=
    if ok s then
      let (s, d) := Append d data in
      if ok s then Flush d else (s, d)
    else (s, d) in
  Ret (s, {| dest_ := d;
             block_offset_ := block_offset_ w + kHeaderSize + length;
             type_crc_ := type_crc_ w |}).

(** The literal ["\x00\x00\x00\x00\x00\x00"] of the trailer. *)
Definition trailer_literal : list byte := [x00; x00; x00; x00; x00; x00].

(** What one iteration of the loop of [AddRecord] hands to
    [EmitPhysicalRecord], and what came back: the history of a call of
    [AddRecord] is the list of these. *)
Record Emission : Type :=
  { e_offset : Z;            (* [block_offset_] when the record is emitted *)
    e_type : RecordType;
    e_payload : list byte;
    e_status : Status }.

(** The first half of the loop body: if the block has no room for a header,
    fill it with zeroes and switch to a new block. *)
Definition SwitchBlock (w : Writer) : outcome Writer :=
  let leftover := kBlockSize - block_offset_ w in
  assert! (0 <=? leftover) ;;
  if leftover <? kHeaderSize then
    (* Switch to a new block *)
    let d :=
      if 0 <? leftover then
        (* Fill the trailer; the status of the call is dropped *)
        snd (Append (dest_ w) (firstn (Z.to_nat leftover) trailer_literal))
      else dest_ w in
    Ret {| dest_ := d; block_offset_ := 0; type_crc_ := type_crc_ w |}
  else Ret w.

(** One iteration of the [do ... while] loop of [AddRecord]: [ptr] is the
    part of the slice that is still to be written ([left] is its length).
    The result is the status [s], the writer, the new [ptr], and the record
    of the emission. *)
Definition AddRecord_body (w : Writer) (ptr : list byte) (begin : bool)
  : outcome (Status * Writer * list byte * Emission) :=
  let left := Z.of_nat (List.length ptr) in
  w <- SwitchBlock w ;;
  (* Invariant: we never leave < kHeaderSize bytes in a block. *)
  assert! (0 <=? kBlockSize - block_offset_ w - kHeaderSize) ;;
  let avail := kBlockSize - block_offset_ w - kHeaderSize in
  let fragment_length := if left <? avail then left else avail in
  let end_ := left =? fragment_length in
  let type :=
    if begin && end_ then kFullType
    else if begin then kFirstType
    else if end_ then kLastType
    else kMiddleType in
  let fragment := firstn (Z.to_nat fragment_length) ptr in
  '(s, w') <- EmitPhysicalRecord w type fragment ;;
  Ret (s, w', skipn (Z.to_nat fragment_length) ptr,
       {| e_offset := block_offset_ w; e_type := type;
          e_payload := fragment; e_status := s |}).

(** The loop of [AddRecord]: the body runs, and runs again while
    [s.ok() && left > 0]. *)
Fixpoint AddRecord_loop (fuel : nat) (w : Writer) (ptr : list byte)
         (begin : bool) : outcome (Status * Writer * list Emission) :=
  match fuel with
  | O => OutOfFuel
  | S fuel' =>
      '(s, w', ptr', e) <- AddRecord_body w ptr begin ;;
      if ok s && (0 <? Z.of_nat (List.length ptr')) then
        '(s', w'', es) <- AddRecord_loop fuel' w' ptr' false ;;
        Ret (s', w'', e :: es)
      else Ret (s, w', [e])
  end.

(** [AddRecord] with the history of its emissions. The loop runs at most
    once more than the slice has bytes: only its first iteration can leave a
    non-empty slice as it is. *)
Definition AddRecord_history (w : Writer) (slice : list byte)
  : outcome (Status * Writer * list Emission) :=
  AddRecord_loop (S (List.length slice)) w slice true.

(** [Writer::AddRecord(slice)] *)
Definition AddRecord (w : Writer) (slice : list byte)
  : outcome (Status * Writer) :=
  '(s, w', _) <- AddRecord_history w slice ;;
  Ret (s, w').

(** A caller that adds the records [slices] one after the other, whatever
    the status of each call: the statuses, the writer at the end and the
    emissions of all calls, in order. *)
Fixpoint AddRecords (w : Writer) (slices : list (list byte))
  : outcome (list Status * Writer * list Emission) :=
  match slices with
  | [] => Ret ([], w, [])
  | slice :: slices' =>
      '(s, w', es) <- AddRecord_history w slice ;;
      '(ss, w'', es') <- AddRecords w' slices' ;;
      Ret (s :: ss, w'', es ++ es')
  end.

End LogWriter.

(** ** A file that keeps the list of the calls made on it *)

Inductive SinkCall (Status : Type) : Type :=
| CAppend (data : list byte) (s : Status)    (* [Append(data)] returned [s] *)
| CFlush (s : Status).                        (* [Flush()] returned [s] *)

Arguments CFlush {Status} s.

Record Recorded (Status File : Type) : Type :=
  { inner : File;
    calls : list (SinkCall Status) }.

#[export] Instance Recorded_WritableFile {Status File : Type}
  {WF : WritableFile Status File} : WritableFile Status (Recorded Status File) :=
  { Append r data :=
      let (s, f) := Append (inner r) data in
      (s, {| inner := f; calls := calls r ++ [CAppend data s] |});
    Flush r :=
      let (s, f) := Flush (inner r) in
      (s, {| inner := f; calls := calls r ++ [CFlush s] |}) }.

(** The fields of a 7-byte header, as a reader decodes them: the checksum of
    bytes 0-3 and the length of bytes 4-5, both low byte first, and the type
    code of byte 6. *)
Definition header_crc (hdr : list byte) : Z := DecodeLE (firstn 4 hdr).
Definition header_length (hdr : list byte) : Z := DecodeLE (firstn 2 (skipn 4 hdr)).
Definition header_type (hdr : list byte) : Z := Z_of_char (nth 6 hdr x00).

(** ** Notions for the statements *)

Section Observations.

Context {Status : Type} {SO : StatusOps Status}.
Context {File : Type} {WF : WritableFile Status File}.
Context {CRC : Crc32c}.

Local Abbreviation Writer := (@Writer File).
Local Abbreviation Emission := (@Emission Status).
Local Abbreviation len l := (Z.of_nat (List.length l)).

(** The cursor at which the next record starts: the cursor itself, or 0
    after the switch to a new block. *)
Definition start_offset (w : Writer) : Z :=
  if kBlockSize - block_offset_ w <? kHeaderSize then 0 else block_offset_ w.

(** [avail] of the first iteration of [AddRecord]. *)
Definition avail_at (w : Writer) : Z :=
  kBlockSize - start_offset w - kHeaderSize.

(** The cursor is inside the block or at its end. *)
Definition cursor_ok (w : Writer) : Prop :=
  0 <= block_offset_ w <= kBlockSize.

(** [fragment_length] and the type of the fragment, as the loop body
    computes them from [left], [avail] and [begin]. *)
Definition fragment_length (w : Writer) (ptr : list byte) : Z :=
  if len ptr <? avail_at w then len ptr else avail_at w.

Definition fragment_type (w : Writer) (ptr : list byte) (begin : bool)
  : RecordType :=
  let end_ := len ptr =? fragment_length w ptr in
  if begin && end_ then kFullType
  else if begin then kFirstType
  else if end_ then kLastType
  else kMiddleType.

(** [LoopRun w ptr begin s w' es]: the loop, entered with the writer [w],
    the bytes [ptr] to write and the flag [begin], leaves with the status
    [s] and the writer [w'] after the emissions [es]. *)
Inductive LoopRun :
  Writer -> list byte -> bool -> Status -> Writer -> list Emission -> Prop :=
| LoopRun_last w ptr begin s w' ptr' e :
    AddRecord_body w ptr begin = Ret (s, w', ptr', e) ->
    ok s && (0 <? len ptr') = false ->
    LoopRun w ptr begin s w' [e]
| LoopRun_next w ptr begin s1 w1 ptr1 e s w' es :
    AddRecord_body w ptr begin = Ret (s1, w1, ptr1, e) ->
    ok s1 && (0 <? len ptr1) = true ->
    LoopRun w1 ptr1 false s w' es ->
    LoopRun w ptr begin s w' (e :: es).

(** A record is well placed when it starts inside its block, ends inside
    it, and its length fits in two bytes. *)
Definition well_placed (e : Emission) : Prop :=
  0 <= e_offset e /\
  len (e_payload e) <= 65535 /\
  e_offset e + kHeaderSize + len (e_payload e) <= kBlockSize.

(** The file never fails. *)
Definition always_succeeds : Prop :=
  (forall (f : File) data, ok (fst (Append f data)) = true) /\
  (forall f : File, ok (fst (Flush f)) = true).

(** The zeroes that fill the block in which the writer stands, when it has
    between 1 and 6 bytes left. *)
Definition trailer_bytes (w : Writer) : list byte :=
  let leftover := kBlockSize - block_offset_ w in
  if (leftover <? kHeaderSize) && (0 <? leftover)
  then repeat x00 (Z.to_nat leftover)
  else [].

(** A record fills its block: it ends where the block ends. *)
Definition fills_block (e : Emission) : Prop :=
  e_offset e + kHeaderSize + len (e_payload e) = kBlockSize.

(** A record of a run that starts at the end of a block with bytes to
    write: it starts a block, it is not empty, and it carries a whole block
    of payload when its type is [Middle]. *)
Definition later_record (e : Emission) : Prop :=
  e_offset e = 0 /\ 0 < len (e_payload e) /\
  (e_type e = kMiddleType ->
   len (e_payload e) = kBlockSize - kHeaderSize).

(** The shapes of the list of types of one call of [AddRecord] that ends
    with the status [s]: one [Full] record; or a [First] record, [Middle]
    records and a [Last] record; or, when the call fails before the end of
    the slice, a [First] record and [Middle] records only. *)
Definition record_types (s : Status) (ts : list RecordType) : Prop :=
  ts = [kFullType] \/
  (exists k, ts = kFirstType :: repeat kMiddleType k ++ [kLastType]) \/
  (ok s = false /\ exists k, ts = kFirstType :: repeat kMiddleType k).

End Observations.

(** The header of the format: checksum in 4 bytes, length in 2 bytes, both
    low byte first, then the type code. *)
Definition header_bytes (crc length type : Z) : list byte :=
  EncodeFixed32 crc ++
  [char_of_Z (length mod 256); char_of_Z (length / 256); char_of_Z type].

(** The status that a call returned. *)
Definition call_status {Status : Type} (c : SinkCall Status) : Status :=
  match c with
  | CAppend _ s => s
  | CFlush s => s
  end.

(** The bytes that the calls [cs] hand to the file, in order. *)
Fixpoint appended {Status : Type} (cs : list (SinkCall Status)) : list byte :=
  match cs with
  | [] => []
  | CAppend data _ :: cs' => data ++ appended cs'
  | CFlush _ :: cs' => appended cs'
  end.

Section RecordedObservations.

Context {Status : Type} {SO : StatusOps Status}.
Context {File : Type} {WF : WritableFile Status File}.
Context {CRC : Crc32c}.

Local Abbreviation RWriter := (@Writer (Recorded Status File)).
Local Abbreviation len l := (Z.of_nat (List.length l)).

(** The writer on the file itself, without the list of calls. *)
Definition forget (w : RWriter) : @Writer File :=
  {| dest_ := inner (dest_ w);
     block_offset_ := block_offset_ w;
     type_crc_ := type_crc_ w |}.

(** The calls of one [EmitPhysicalRecord] and the status it returns: the
    header only, when its append fails; the header and the payload, when the
    append of the payload fails; the header, the payload and the flush. *)
Inductive EmitCalls (hdr data : list byte)
  : list (SinkCall Status) -> Status -> Prop :=
| EmitCalls_header s1 :
    ok s1 = false ->
    EmitCalls hdr data [CAppend hdr s1] s1
| EmitCalls_payload s1 s2 :
    ok s1 = true -> ok s2 = false ->
    EmitCalls hdr data [CAppend hdr s1; CAppend data s2] s2
| EmitCalls_flush s1 s2 s3 :
    ok s1 = true -> ok s2 = true ->
    EmitCalls hdr data [CAppend hdr s1; CAppend data s2; CFlush s3] s3.

(** The header that [EmitPhysicalRecord] formats. *)
Definition emitted_header (w : RWriter) (t : RecordType) (data : list byte)
  : list byte :=
  header_bytes (Mask (Extend (type_crc_at w t) data)) (len data)
               (RecordType_code t).

(** The calls of the switch to a new block: one append of [leftover] zeroes
    when between 1 and 6 bytes are left in the block, and none otherwise. *)
Definition TrailerCalls (w : RWriter) (tr : list (SinkCall Status)) : Prop :=
  let leftover := kBlockSize - block_offset_ w in
  if (leftover <? kHeaderSize) && (0 <? leftover)
  then exists s0, tr = [CAppend (repeat x00 (Z.to_nat leftover)) s0]
  else tr = [].

(** The calls of the emissions [es], one group of calls for each. *)
Inductive RunCalls (w : RWriter)
  : list (@Emission Status) -> list (SinkCall Status) -> Prop :=
| RunCalls_nil : RunCalls w [] []
| RunCalls_cons e es c cs :
    EmitCalls (emitted_header w (e_type e) (e_payload e)) (e_payload e) c
              (e_status e) ->
    RunCalls w es cs ->
    RunCalls w (e :: es) (c ++ cs).

(** A record as it stands in the file: the header with the masked checksum
    of the type byte and the payload, the length and the type code, and then
    the payload. *)
Definition record_image (e : @Emission Status) : list byte :=
  header_bytes
    (Mask (Extend (Value [char_of_Z (RecordType_code (e_type e))])
                  (e_payload e)))
    (len (e_payload e)) (RecordType_code (e_type e))
  ++ e_payload e.

End RecordedObservations.

(** ** Concrete instances, for running the writer *)

Module Sample.

Inductive Status : Type :=
| OK
| IOError.

#[export] Instance Status_ops : StatusOps Status :=
  { ok s := match s with OK => true | IOError => false end }.

(** A file in memory. Each call consumes one entry of [script] and fails
    when the entry is [false]; a call that fails writes nothing; when the
    script is used up every call succeeds. *)
Record File : Type :=
  { written : list byte;
    script : list bool }.

Definition respond (f : File) : bool * list bool :=
  match script f with
  | [] => (true, [])
  | b :: bs => (b, bs)
  end.

#[export] Instance File_WritableFile : WritableFile Status File :=
  { Append f data :=
      let (b, bs) := respond f in
      if b then (OK, {| written := written f ++ data; script := bs |})
      else (IOError, {| written := written f; script := bs |});
    Flush f :=
      let (b, bs) := respond f in
      (if b then OK else IOError, {| written := written f; script := bs |}) }.

Definition empty_file : File := {| written := []; script := [] |}.
Definition failing_file (script : list bool) : File :=
  {| written := []; script := script |}.

(** A file in memory on which no call fails. *)
Definition MemFile : Type := list byte.

#[export] Instance MemFile_WritableFile : WritableFile Status MemFile :=
  { Append f data := (OK, f ++ data);
    Flush f := (OK, f) }.

(** CRC-32C, bit by bit (reflected polynomial 0x82F63B78), with the masking
    of a stored checksum as a rotation by 15 bits plus a constant. *)
Definition crc_bit (crc : Z) : Z :=
  if Z.testbit crc 0 then Z.lxor (Z.shiftr crc 1) 0x82F63B78
  else Z.shiftr crc 1.

Definition crc_byte (crc : Z) (b : byte) : Z :=
  Nat.iter 8 crc_bit (Z.lxor crc (Z_of_char b)).

Definition crc_extend (init : Z) (data : list byte) : Z :=
  Z.lxor (fold_left crc_byte data (Z.lxor init 0xffffffff)) 0xffffffff.

Definition crc_mask (crc : Z) : Z :=
  (Z.lor (Z.shiftr crc 15) (Z.shiftl crc 17) + 0xa282ead8) mod 2 ^ 32.

#[export] Instance Crc : Crc32c :=
  { Value := crc_extend 0;
    Extend := crc_extend;
    Mask := crc_mask;
    Mask_range := fun crc => Z.mod_pos_bound _ (2 ^ 32) eq_refl }.

(** A recorded file that is empty and does not fail. *)
Definition log0 : Recorded Status File :=
  {| inner := empty_file; calls := [] |}.

(** A recorded file that answers its calls as [script] says. *)
Definition log_failing (script : list bool) : Recorded Status File :=
  {| inner := failing_file script; calls := [] |}.

(** A recorded file in memory, on which no call fails. *)
Definition mem0 : Recorded Status MemFile :=
  {| inner := []; calls := [] |}.

End Sample.

(** * Properties *)

Unset Implicit Arguments.

Lemma Ret_inj (A : Type) (a b : A) : Ret a = Ret b -> a = b.
Proof. intros H. injection H. auto. Qed.

(** [Ret (a, b, ...) = Ret (x, y, ...)] in [H], component by component. *)
Ltac ret_inj H :=
  apply Ret_inj in H;
  repeat (let H' := fresh "Heq" in
          apply pair_equal_spec in H; destruct H as [H H']);
  subst.

(** ** Bytes *)

Lemma Z_of_char_of_Z (z : Z) : Z_of_char (char_of_Z z) = z mod 256.
Proof.
  unfold Z_of_char, char_of_Z.
  assert (Hz : 0 <= z mod 256 < 256) by (apply Z.mod_pos_bound; lia).
  destruct (Byte.of_N (Z.to_N (z mod 256))) as [b|] eqn:E.
  - apply Byte.to_of_N in E. rewrite E. lia.
  - apply Byte.of_N_None_iff in E. lia.
Qed.

Lemma DecodeLE_EncodeFixed32 (v : Z) :
  0 <= v < 2 ^ 32 -> DecodeLE (EncodeFixed32 v) = v.
Proof.
  intros Hv. unfold EncodeFixed32, DecodeLE.
  rewrite !Z_of_char_of_Z, !Z.shiftr_div_pow2 by lia.
  change (2 ^ 8) with 256. change (2 ^ 16) with (256 * 256).
  change (2 ^ 24) with (256 * 256 * 256).
  change (2 ^ 32) with (256 * 256 * 256 * 256) in Hv.
  rewrite <- !Z.div_div by lia.
  Z.div_mod_to_equations. lia.
Qed.

(** ** The steps of the writer *)

Ltac simpl_hist :=
  cbn [map concat repeat app e_type e_payload e_offset e_status].

Section Steps.

Context {Status : Type} {SO : StatusOps Status}.
Context {File : Type} {WF : WritableFile Status File}.
Context {CRC : Crc32c}.

Local Abbreviation Writer := (@Writer File).
Local Abbreviation Emission := (@Emission Status).
Local Abbreviation len l := (Z.of_nat (List.length l)).

Lemma start_offset_room (w : Writer) : 0 <= avail_at w.
Proof.
  unfold avail_at, start_offset, kBlockSize, kHeaderSize.
  destruct (Z.ltb_spec (32768 - block_offset_ w) 7); lia.
Qed.

Lemma EmitPhysicalRecord_inv {w : Writer} {t data s w'} :
  EmitPhysicalRecord w t data = Ret (s, w') ->
  len data <= 65535 /\
  block_offset_ w + kHeaderSize + len data <= kBlockSize /\
  block_offset_ w' = block_offset_ w + kHeaderSize + len data /\
  type_crc_ w' = type_crc_ w.
Proof.
  unfold EmitPhysicalRecord, assert, bind.
  destruct (Z.leb_spec (len data) 65535); [|discriminate].
  destruct (Z.leb_spec (block_offset_ w + kHeaderSize + len data) kBlockSize);
    [|discriminate].
  destruct (Append (dest_ w) _) as [s1 d1].
  destruct (ok s1).
  - destruct (Append d1 data) as [s2 d2].
    destruct (ok s2).
    + destruct (Flush d2) as [s3 d3].
      intros Hret. ret_inj Hret. simpl. auto.
    + intros Hret. ret_inj Hret. simpl. auto.
  - intros Hret. ret_inj Hret. simpl. auto.
Qed.

Lemma EmitPhysicalRecord_returns (w : Writer) t data :
  len data <= 65535 ->
  block_offset_ w + kHeaderSize + len data <= kBlockSize ->
  exists s d,
    EmitPhysicalRecord w t data =
    Ret (s, {| dest_ := d;
               block_offset_ := block_offset_ w + kHeaderSize + len data;
               type_crc_ := type_crc_ w |}).
Proof.
  intros H1 H2. unfold EmitPhysicalRecord, assert, bind.
  destruct (Z.leb_spec (len data) 65535); [|lia].
  destruct (Z.leb_spec (block_offset_ w + kHeaderSize + len data) kBlockSize);
    [|lia].
  destruct (Append (dest_ w) _) as [s1 d1].
  destruct (ok s1); [|eauto].
  destruct (Append d1 data) as [s2 d2].
  destruct (ok s2); [|eauto].
  destruct (Flush d2) as [s3 d3]. eauto.
Qed.

Lemma SwitchBlock_inv {w w1 : Writer} :
  SwitchBlock w = Ret w1 ->
  block_offset_ w <= kBlockSize /\
  block_offset_ w1 = start_offset w /\
  type_crc_ w1 = type_crc_ w.
Proof.
  unfold SwitchBlock, start_offset, assert, bind.
  destruct (Z.leb_spec 0 (kBlockSize - block_offset_ w)); [|discriminate].
  destruct (kBlockSize - block_offset_ w <? kHeaderSize).
  - intros Hret. ret_inj Hret. cbn [block_offset_ type_crc_]. split; [lia|auto].
  - intros Hret. ret_inj Hret. split; [lia|auto].
Qed.

Lemma SwitchBlock_returns (w : Writer) :
  block_offset_ w <= kBlockSize -> exists w1, SwitchBlock w = Ret w1.
Proof.
  intros H. unfold SwitchBlock, assert, bind.
  destruct (Z.leb_spec 0 (kBlockSize - block_offset_ w)); [|lia].
  destruct (kBlockSize - block_offset_ w <? kHeaderSize); eauto.
Qed.

Lemma fragment_length_bounds (w : Writer) ptr :
  0 <= fragment_length w ptr <= len ptr /\
  fragment_length w ptr <= avail_at w.
Proof.
  unfold fragment_length. pose proof (start_offset_room w).
  destruct (Z.ltb_spec (len ptr) (avail_at w)); lia.
Qed.

(** What an iteration that returns has done. *)
Lemma AddRecord_body_inv {w : Writer} {ptr begin s w' ptr' e} :
  AddRecord_body w ptr begin = Ret (s, w', ptr', e) ->
  let n := fragment_length w ptr in
  block_offset_ w <= kBlockSize /\
  n <= 65535 /\
  e = {| e_offset := start_offset w; e_type := fragment_type w ptr begin;
         e_payload := firstn (Z.to_nat n) ptr; e_status := s |} /\
  ptr' = skipn (Z.to_nat n) ptr /\
  block_offset_ w' = start_offset w + kHeaderSize + n /\
  type_crc_ w' = type_crc_ w.
Proof.
  unfold AddRecord_body. intros H.
  destruct (SwitchBlock w) as [w1| |] eqn:Hsw; try discriminate.
  apply SwitchBlock_inv in Hsw. destruct Hsw as (Hle & Ho & Hcrc).
  cbn [bind] in H. unfold assert at 1 in H.
  destruct (0 <=? kBlockSize - block_offset_ w1 - kHeaderSize);
    [|discriminate].
  cbn [bind] in H.
  fold (fragment_length w ptr) in *.
  unfold fragment_length, fragment_type, avail_at in *.
  rewrite Ho in H.
  set (n := if len ptr <? kBlockSize - start_offset w - kHeaderSize
            then len ptr else kBlockSize - start_offset w - kHeaderSize) in *.
  destruct (EmitPhysicalRecord w1 _ _) as [[s1 w2]| |] eqn:Hem;
    try discriminate.
  cbn [bind] in H. ret_inj H.
  apply EmitPhysicalRecord_inv in Hem.
  destruct Hem as (H1 & H2 & H3 & H4).
  pose proof (fragment_length_bounds w ptr) as Hb.
  unfold fragment_length, avail_at in Hb. fold n in Hb.
  rewrite length_firstn in H1, H2, H3.
  assert (Hn : Z.of_nat (Nat.min (Z.to_nat n) (List.length ptr)) = n) by lia.
  rewrite Hn in *.
  repeat split; try lia; try congruence.
Qed.

Lemma start_offset_bounds {w : Writer} :
  cursor_ok w -> 0 <= start_offset w <= kBlockSize - kHeaderSize.
Proof.
  unfold cursor_ok, start_offset, kBlockSize, kHeaderSize.
  destruct (Z.ltb_spec (32768 - block_offset_ w) 7); lia.
Qed.

(** An iteration returns, that is none of its assertions fails, when the
    cursor is not beyond the block and the fragment fits the length field. *)
Lemma AddRecord_body_returns_gen (w : Writer) ptr begin :
  block_offset_ w <= kBlockSize ->
  fragment_length w ptr <= 65535 ->
  exists s w' ptr' e, AddRecord_body w ptr begin = Ret (s, w', ptr', e).
Proof.
  intros Hc H16. pose proof (start_offset_room w) as Hs. unfold avail_at in Hs.
  unfold AddRecord_body.
  destruct (SwitchBlock_returns w) as [w1 Hsw]; [apply Hc|].
  rewrite Hsw. apply SwitchBlock_inv in Hsw. destruct Hsw as (_ & Ho & _).
  cbn [bind]. rewrite Ho. unfold assert at 1.
  destruct (Z.leb_spec 0 (kBlockSize - start_offset w - kHeaderSize)); [|lia].
  cbn [bind].
  pose proof (fragment_length_bounds w ptr) as Hb.
  unfold fragment_length, avail_at in Hb, H16.
  set (n := if len ptr <? kBlockSize - start_offset w - kHeaderSize
            then len ptr else kBlockSize - start_offset w - kHeaderSize) in *.
  assert (Hn : len (firstn (Z.to_nat n) ptr) = n)
    by (rewrite length_firstn; lia).
  destruct (EmitPhysicalRecord_returns w1
              (if begin && (len ptr =? n) then kFullType
               else if begin then kFirstType
               else if len ptr =? n then kLastType else kMiddleType)
              (firstn (Z.to_nat n) ptr)) as (s & d & Hem).
  - rewrite Hn. exact H16.
  - rewrite Hn, Ho. lia.
  - rewrite Hem. cbn [bind]. eauto.
Qed.

Lemma AddRecord_body_returns (w : Writer) ptr begin :
  cursor_ok w ->
  exists s w' ptr' e, AddRecord_body w ptr begin = Ret (s, w', ptr', e).
Proof.
  intros Hc. pose proof (start_offset_bounds Hc) as Hs.
  apply AddRecord_body_returns_gen; [apply Hc|].
  pose proof (fragment_length_bounds w ptr) as Hb. unfold avail_at in Hb.
  unfold kBlockSize, kHeaderSize in *. lia.
Qed.

(** *** Runs of the loop *)

Lemma AddRecord_loop_run fuel : forall (w : Writer) ptr begin s w' es,
  AddRecord_loop fuel w ptr begin = Ret (s, w', es) ->
  LoopRun w ptr begin s w' es.
Proof.
  induction fuel as [|fuel IH]; intros w ptr begin s w' es H;
    [discriminate|].
  cbn [AddRecord_loop] in H.
  destruct (AddRecord_body w ptr begin) as [[[[s1 w1] ptr1] e]| |] eqn:Hb;
    try discriminate.
  cbn [bind] in H.
  destruct (ok s1 && (0 <? len ptr1)) eqn:Hc.
  - destruct (AddRecord_loop fuel w1 ptr1 false) as [[[s2 w2] es2]| |] eqn:Hl;
      try discriminate.
    cbn [bind] in H. ret_inj H.
    eapply LoopRun_next; eauto.
  - ret_inj H. eapply LoopRun_last; eauto.
Qed.

(** An iteration after which the loop goes on has filled its block. *)
Lemma AddRecord_body_continues {w : Writer} {ptr begin s w' ptr' e} :
  AddRecord_body w ptr begin = Ret (s, w', ptr', e) ->
  0 < len ptr' ->
  fragment_length w ptr = avail_at w /\ avail_at w < len ptr /\
  block_offset_ w' = kBlockSize /\
  len ptr' = len ptr - avail_at w.
Proof.
  intros Hb Hl. apply AddRecord_body_inv in Hb.
  destruct Hb as (_ & _ & _ & -> & Ho & _).
  pose proof (fragment_length_bounds w ptr) as Hf.
  rewrite length_skipn in *.
  unfold fragment_length in *.
  destruct (Z.ltb_spec (len ptr) (avail_at w)); [lia|].
  unfold avail_at in *. lia.
Qed.

(** The loop returns, whatever the file does: [fuel] iterations are enough
    when [fuel] exceeds the number of bytes, or equals it when the block has
    room for a byte. *)
Lemma AddRecord_loop_returns fuel : forall (w : Writer) ptr begin,
  cursor_ok w ->
  (List.length ptr < fuel)%nat \/
  ((0 < List.length ptr <= fuel)%nat /\ 0 < avail_at w) ->
  exists s w' es, AddRecord_loop fuel w ptr begin = Ret (s, w', es).
Proof.
  induction fuel as [|fuel IH]; intros w ptr begin Hc Hf; [lia|].
  cbn [AddRecord_loop].
  destruct (AddRecord_body_returns w ptr begin Hc) as (s1 & w1 & ptr1 & e & Hb).
  rewrite Hb. cbn [bind].
  destruct (ok s1 && (0 <? len ptr1)) eqn:Hgo; [|eauto].
  apply andb_prop in Hgo. destruct Hgo as [_ Hgo].
  apply Z.ltb_lt in Hgo.
  destruct (AddRecord_body_continues Hb Hgo) as (_ & Hlt & Hk & Hlen).
  destruct (IH w1 ptr1 false) as (s2 & w2 & es2 & Hl).
  - unfold cursor_ok. rewrite Hk. unfold kBlockSize. lia.
  - right. pose proof (start_offset_room w).
    assert (0 < avail_at w1).
    { unfold avail_at, start_offset. rewrite Hk.
      unfold kBlockSize, kHeaderSize. simpl. lia. }
    lia.
  - rewrite Hl. cbn [bind]. eauto.
Qed.

(** The iteration bound of the model is never reached, in any state of the
    writer and on any file: [AddRecord] returns or an assertion fails. *)
Lemma AddRecord_body_fuel (w : Writer) ptr begin :
  AddRecord_body w ptr begin <> OutOfFuel.
Proof.
  unfold AddRecord_body, SwitchBlock, EmitPhysicalRecord, assert, bind.
  repeat match goal with
         | |- context [if ?b then _ else _] => destruct b
         | |- context [let (_, _) := ?x in _] => destruct x
         end; discriminate.
Qed.

Lemma AddRecord_loop_fuel fuel : forall (w : Writer) ptr begin,
  (List.length ptr < fuel)%nat \/
  ((0 < List.length ptr <= fuel)%nat /\ 0 < avail_at w) ->
  AddRecord_loop fuel w ptr begin <> OutOfFuel.
Proof.
  induction fuel as [|fuel IH]; intros w ptr begin Hf; [lia|].
  cbn [AddRecord_loop].
  destruct (AddRecord_body w ptr begin) as [[[[s1 w1] ptr1] e]| |] eqn:Hb;
    cbn [bind]; [|discriminate|now apply AddRecord_body_fuel in Hb].
  destruct (ok s1 && (0 <? len ptr1)) eqn:Hgo; [|discriminate].
  apply andb_prop in Hgo. destruct Hgo as [_ Hgo]. apply Z.ltb_lt in Hgo.
  destruct (AddRecord_body_continues Hb Hgo) as (_ & Hlt & Hk & Hlen).
  assert (Hnext : AddRecord_loop fuel w1 ptr1 false <> OutOfFuel).
  { apply IH. right. pose proof (start_offset_room w).
    assert (0 < avail_at w1).
    { unfold avail_at, start_offset. rewrite Hk.
      unfold kBlockSize, kHeaderSize. simpl. lia. }
    lia. }
  destruct (AddRecord_loop fuel w1 ptr1 false) as [[[s2 w2] es2]| |];
    cbn [bind]; congruence.
Qed.

Lemma AddRecord_history_fuel (w : Writer) slice :
  AddRecord_history w slice <> OutOfFuel.
Proof. apply AddRecord_loop_fuel. left. lia. Qed.

(** The statuses along a run: every emission but the last one succeeded,
    and the status of the last one is the status of the run. *)
Lemma LoopRun_status {w : Writer} {ptr begin s w' es} :
  LoopRun w ptr begin s w' es ->
  exists es0 e,
    es = es0 ++ [e] /\
    Forall (fun e0 => ok (e_status e0) = true) es0 /\
    e_status e = s.
Proof.
  induction 1 as [w ptr begin s w' ptr' e Hb Hc
                 |w ptr begin s1 w1 ptr1 e s w' es Hb Hc Hrun IH].
  - exists [], e. apply AddRecord_body_inv in Hb.
    destruct Hb as (_ & _ & -> & _). auto.
  - destruct IH as (es0 & e' & -> & Hok & Hs).
    exists (e :: es0), e'. split; [reflexivity|]. split; [|exact Hs].
    constructor; [|exact Hok].
    apply AddRecord_body_inv in Hb. destruct Hb as (_ & _ & -> & _).
    apply andb_prop in Hc. apply Hc.
Qed.

(** The payloads along a run are consecutive pieces of [ptr], from its
    start; a run that succeeds leaves nothing over. *)
Lemma LoopRun_payload {w : Writer} {ptr begin s w' es} :
  LoopRun w ptr begin s w' es ->
  exists rest,
    ptr = concat (map (@e_payload _) es) ++ rest /\
    (ok s = true -> rest = []).
Proof.
  induction 1 as [w ptr begin s w' ptr' e Hb Hc
                 |w ptr begin s1 w1 ptr1 e s w' es Hb Hc Hrun IH].
  - exists ptr'. apply AddRecord_body_inv in Hb.
    destruct Hb as (_ & _ & -> & -> & _). simpl_hist. rewrite app_nil_r.
    split; [symmetry; apply firstn_skipn|].
    intros Hok. rewrite Hok in Hc. cbn in Hc. apply Z.ltb_ge in Hc.
    apply length_zero_iff_nil. lia.
  - destruct IH as (rest & Hp & Hr). exists rest. split; [|exact Hr].
    apply AddRecord_body_inv in Hb.
    destruct Hb as (_ & _ & -> & -> & _). simpl_hist.
    rewrite <- app_assoc, <- Hp. symmetry. apply firstn_skipn.
Qed.

Lemma fragment_type_whole (w : Writer) ptr begin :
  len ptr <= avail_at w ->
  fragment_length w ptr = len ptr /\
  fragment_type w ptr begin = if begin then kFullType else kLastType.
Proof.
  intros H. unfold fragment_type, fragment_length.
  destruct (Z.ltb_spec (len ptr) (avail_at w)).
  - rewrite Z.eqb_refl. destruct begin; auto.
  - replace (avail_at w) with (len ptr) by lia.
    rewrite Z.eqb_refl. destruct begin; auto.
Qed.

Lemma fragment_type_part (w : Writer) ptr begin :
  avail_at w < len ptr ->
  fragment_length w ptr = avail_at w /\
  fragment_type w ptr begin = if begin then kFirstType else kMiddleType.
Proof.
  intros H. unfold fragment_type, fragment_length.
  destruct (Z.ltb_spec (len ptr) (avail_at w)); [lia|].
  destruct (Z.eqb_spec (len ptr) (avail_at w)); [lia|].
  destruct begin; auto.
Qed.

(** After the first fragment, a run that succeeds emits [Middle] records and
    then one [Last] record. *)
Lemma LoopRun_types_tail {w : Writer} {ptr begin s w' es} :
  LoopRun w ptr begin s w' es ->
  begin = false -> ok s = true ->
  exists k, map (@e_type _) es = repeat kMiddleType k ++ [kLastType].
Proof.
  induction 1 as [w ptr begin s w' ptr' e Hb Hc
                 |w ptr begin s1 w1 ptr1 e s w' es Hb Hc Hrun IH];
    intros -> Hok.
  - exists 0%nat. rewrite Hok in Hc. cbn in Hc. apply Z.ltb_ge in Hc.
    apply AddRecord_body_inv in Hb.
    destruct Hb as (_ & _ & -> & -> & _). simpl_hist.
    rewrite length_skipn in Hc.
    pose proof (fragment_length_bounds w ptr) as Hf.
    destruct (Z.le_gt_cases (len ptr) (avail_at w)) as [Hle|Hgt].
    + destruct (fragment_type_whole w ptr false Hle) as (_ & ->).
      reflexivity.
    + destruct (fragment_type_part w ptr false Hgt) as (Hn & _). lia.
  - destruct (IH eq_refl Hok) as (k & Hk). exists (S k).
    apply andb_prop in Hc. destruct Hc as [_ Hc]. apply Z.ltb_lt in Hc.
    destruct (AddRecord_body_continues Hb Hc) as (_ & Hlt & _).
    apply AddRecord_body_inv in Hb. destruct Hb as (_ & _ & -> & _).
    simpl_hist. rewrite Hk.
    destruct (fragment_type_part w ptr false Hlt) as (_ & ->). reflexivity.
Qed.

(** Where the records of a run start: the first one at [start_offset], the
    later ones at the start of a block; and each of them fits in its block
    and in the length field. *)
Lemma LoopRun_offsets {w : Writer} {ptr begin s w' es} :
  LoopRun w ptr begin s w' es ->
  exists e es',
    es = e :: es' /\ e_offset e = start_offset w /\
    Forall (fun e0 => e_offset e0 = 0) es' /\
    Forall (fun e0 => len (e_payload e0) <= 65535 /\
                      e_offset e0 + kHeaderSize + len (e_payload e0)
                      <= kBlockSize) es.
Proof.
  induction 1 as [w ptr begin s w' ptr' e Hb Hc
                 |w ptr begin s1 w1 ptr1 e s w' es Hb Hc Hrun IH].
  - exists e, []. apply AddRecord_body_inv in Hb.
    destruct Hb as (_ & Hn & -> & _). simpl_hist.
    pose proof (fragment_length_bounds w ptr) as Hf. unfold avail_at in Hf.
    repeat split; auto. constructor; [|constructor]. simpl_hist.
    rewrite length_firstn. lia.
  - destruct IH as (e1 & es1 & -> & Ho & Hz & Hfit).
    exists e, (e1 :: es1).
    apply andb_prop in Hc. destruct Hc as [_ Hc]. apply Z.ltb_lt in Hc.
    destruct (AddRecord_body_continues Hb Hc) as (_ & _ & Hk & _).
    apply AddRecord_body_inv in Hb. destruct Hb as (_ & Hn & -> & _). simpl_hist.
    pose proof (fragment_length_bounds w ptr) as Hf. unfold avail_at in Hf.
    repeat split; auto.
    + constructor; [|exact Hz]. rewrite Ho. unfold start_offset.
      rewrite Hk. reflexivity.
    + constructor; [|exact Hfit]. simpl_hist. rewrite length_firstn. lia.
Qed.

(** The cursor at the end of a run is just behind the last record. *)
Lemma LoopRun_cursor {w : Writer} {ptr begin s w' es} :
  LoopRun w ptr begin s w' es ->
  exists es0 e,
    es = es0 ++ [e] /\
    block_offset_ w' = e_offset e + kHeaderSize + len (e_payload e) /\
    type_crc_ w' = type_crc_ w.
Proof.
  induction 1 as [w ptr begin s w' ptr' e Hb Hc
                 |w ptr begin s1 w1 ptr1 e s w' es Hb Hc Hrun IH].
  - exists [], e. apply AddRecord_body_inv in Hb.
    destruct Hb as (_ & _ & -> & _ & Ho & Hcrc). simpl_hist.
    pose proof (fragment_length_bounds w ptr) as Hf.
    rewrite length_firstn. repeat split; auto. lia.
  - destruct IH as (es0 & e' & -> & Ho & Hcrc). exists (e :: es0), e'.
    apply AddRecord_body_inv in Hb.
    destruct Hb as (_ & _ & _ & _ & _ & Hcrc1).
    repeat split; auto. congruence.
Qed.

End Steps.

(** ** Properties that hold on every file *)

Section Framing.

Context {Status : Type} {SO : StatusOps Status}.
Context {File : Type} {WF : WritableFile Status File}.
Context {CRC : Crc32c}.

Local Abbreviation Writer := (@Writer File).
Local Abbreviation Emission := (@Emission Status).
Local Abbreviation len l := (Z.of_nat (List.length l)).

Lemma AddRecord_history_run {w : Writer} {slice s w' es} :
  AddRecord_history w slice = Ret (s, w', es) ->
  LoopRun w slice true s w' es.
Proof. apply AddRecord_loop_run. Qed.

Lemma AddRecord_history_returns (w : Writer) slice :
  cursor_ok w -> exists s w' es, AddRecord_history w slice = Ret (s, w', es).
Proof.
  intros Hc. apply AddRecord_loop_returns; [exact Hc|]. left. lia.
Qed.

Lemma LoopRun_well_placed {w : Writer} {ptr begin s w' es} :
  cursor_ok w -> LoopRun w ptr begin s w' es ->
  Forall well_placed es /\ cursor_ok w'.
Proof.
  intros Hc Hrun.
  destruct (LoopRun_offsets Hrun) as (e & es' & -> & Ho & Hz & Hfit).
  pose proof (start_offset_bounds Hc) as Hs.
  assert (Hall : Forall well_placed (e :: es')).
  { inversion Hfit as [|? ? He Hfit']; subst.
    constructor.
    - unfold well_placed. rewrite Ho in *. lia.
    - rewrite Forall_forall in *. intros x Hx. unfold well_placed.
      specialize (Hz x Hx). specialize (Hfit' x Hx). lia. }
  split; [exact Hall|].
  destruct (LoopRun_cursor Hrun) as (es0 & e1 & Heq & Hcur & _).
  assert (Hin : In e1 (e :: es')) by (rewrite Heq; apply in_or_app; right; left; reflexivity).
  rewrite Forall_forall in Hall. specialize (Hall e1 Hin).
  unfold well_placed in Hall. unfold cursor_ok. rewrite Hcur.
  unfold kHeaderSize in *. lia.
Qed.

Lemma AddRecords_well_placed (slices : list (list byte)) : forall w : Writer,
  cursor_ok w ->
  exists ss w' es,
    AddRecords w slices = Ret (ss, w', es) /\
    List.length ss = List.length slices /\
    cursor_ok w' /\ Forall well_placed es.
Proof.
  induction slices as [|slice slices IH]; intros w Hc.
  - exists [], w, []. cbn. auto.
  - cbn [AddRecords].
    destruct (AddRecord_history_returns w slice Hc) as (s & w1 & es1 & H1).
    rewrite H1. cbn [bind].
    destruct (LoopRun_well_placed Hc (AddRecord_history_run H1))
      as (Hwp1 & Hc1).
    destruct (IH w1 Hc1) as (ss & w2 & es2 & H2 & Hlen & Hc2 & Hwp2).
    rewrite H2. cbn [bind].
    exists (s :: ss), w2, (es1 ++ es2). cbn [List.length].
    repeat split; auto; try apply Hc2. apply Forall_app. auto.
Qed.

(** C4. [EmitPhysicalRecord], called as its assertions require, returns with
    the cursor advanced by exactly [kHeaderSize + length], on every file:
    whether the header append, the payload append or the flush fails makes
    no difference to the cursor. *)
Theorem EmitPhysicalRecord_advances_cursor (w : Writer) t data :
  0 <= block_offset_ w ->
  len data <= 65535 ->
  block_offset_ w + kHeaderSize + len data <= kBlockSize ->
  exists s w',
    EmitPhysicalRecord w t data = Ret (s, w') /\
    block_offset_ w' = block_offset_ w + kHeaderSize + len data.
Proof.
  intros _ H1 H2.
  destruct (EmitPhysicalRecord_returns w t data H1 H2) as (s & d & H).
  eexists _, _. split; [exact H|reflexivity].
Qed.

(** The history of a call of [AddRecord] that succeeds on a payload longer
    than the room [avail] of the block it starts in: one [First] record,
    then [Middle] records, then one [Last] record, and their payloads, put
    end to end, are the payload of the call. *)
Lemma AddRecord_history_fragments (w : Writer) p s w' es :
  0 <= block_offset_ w ->
  avail_at w < len p ->
  AddRecord_history w p = Ret (s, w', es) ->
  ok s = true ->
  (exists k,
     map (@e_type _) es = kFirstType :: repeat kMiddleType k ++ [kLastType]) /\
  concat (map (@e_payload _) es) = p.
Proof.
  intros _ Hlong H Hok. apply AddRecord_history_run in H. split.
  - inversion H as [w0 ptr0 b0 s0 w0' ptr' e Hb Hc
                   |w0 ptr0 b0 s1 w1 ptr1 e s0 w0' es1 Hb Hc Hrun]; subst.
    + exfalso. rewrite Hok in Hc. cbn in Hc. apply Z.ltb_ge in Hc.
      apply AddRecord_body_inv in Hb. destruct Hb as (_ & _ & _ & -> & _).
      destruct (fragment_type_part w p true Hlong) as (Hn & _).
      rewrite length_skipn in Hc. pose proof (start_offset_room w). lia.
    + destruct (LoopRun_types_tail Hrun eq_refl Hok) as (k & Hk).
      exists k. apply AddRecord_body_inv in Hb.
      destruct Hb as (_ & _ & -> & _). simpl_hist. rewrite Hk.
      destruct (fragment_type_part w p true Hlong) as (_ & ->). reflexivity.
  - destruct (LoopRun_payload H) as (rest & Hp & Hr).
    rewrite (Hr Hok), app_nil_r in Hp. auto.
Qed.

(** C6, amended. [AddRecord] of the empty slice, with the cursor inside the
    block or at its end, emits exactly one record, of type [Full] and of length 0, and
    leaves the cursor [kHeaderSize] behind the place where this record
    starts: [kHeaderSize] further than it was when the block had room for a
    header, and at [kHeaderSize] in a new block when it had not. *)
Theorem AddRecord_empty (w : Writer) :
  0 <= block_offset_ w <= kBlockSize ->
  exists s w' e,
    AddRecord_history w [] = Ret (s, w', [e]) /\
    e_type e = kFullType /\ e_payload e = [] /\ e_status e = s /\
    e_offset e = start_offset w /\
    block_offset_ w' = e_offset e + kHeaderSize /\
    (kHeaderSize <= kBlockSize - block_offset_ w ->
     block_offset_ w' = block_offset_ w + kHeaderSize) /\
    (kBlockSize - block_offset_ w < kHeaderSize ->
     block_offset_ w' = kHeaderSize).
Proof.
  intros [_ Hc].
  pose proof (start_offset_room w) as Hroom.
  destruct (fragment_type_whole w [] true) as (Hn & Ht); [cbn; lia|].
  cbn [List.length Z.of_nat] in Hn.
  destruct (AddRecord_body_returns_gen w [] true Hc)
    as (s & w' & ptr' & e & Hb); [cbn [List.length Z.of_nat]; lia|].
  unfold AddRecord_history. cbn [List.length AddRecord_loop]. rewrite Hb.
  cbn [bind]. apply AddRecord_body_inv in Hb.
  destruct Hb as (_ & _ & -> & -> & Ho & _).
  rewrite Hn in *. rewrite Ht. cbn [Z.to_nat skipn firstn List.length Z.of_nat].
  rewrite andb_false_r.
  eexists _, _, _. split; [reflexivity|]. simpl_hist.
  repeat split; try lia.
  - intros H. rewrite Ho. unfold start_offset.
    destruct (Z.ltb_spec (kBlockSize - block_offset_ w) kHeaderSize); lia.
  - intros H. rewrite Ho. unfold start_offset.
    destruct (Z.ltb_spec (kBlockSize - block_offset_ w) kHeaderSize); lia.
Qed.

Lemma LoopRun_inv {w : Writer} {ptr begin s w' es} :
  LoopRun w ptr begin s w' es ->
  exists s1 w1 ptr1 e,
    AddRecord_body w ptr begin = Ret (s1, w1, ptr1, e) /\
    ((ok s1 && (0 <? len ptr1) = false /\ s = s1 /\ w' = w1 /\ es = [e]) \/
     (ok s1 && (0 <? len ptr1) = true /\
      exists es1, es = e :: es1 /\ LoopRun w1 ptr1 false s w' es1)).
Proof.
  inversion 1; subst; eexists _, _, _, _; (split; [eassumption|]); eauto 6.
Qed.

Lemma trailer_literal_zeroes (leftover : Z) :
  0 < leftover < kHeaderSize ->
  firstn (Z.to_nat leftover) trailer_literal = repeat x00 (Z.to_nat leftover).
Proof.
  unfold kHeaderSize. intros H.
  assert (Hn : (Z.to_nat leftover = 1 \/ Z.to_nat leftover = 2 \/
                Z.to_nat leftover = 3 \/ Z.to_nat leftover = 4 \/
                Z.to_nat leftover = 5 \/ Z.to_nat leftover = 6)%nat) by lia.
  destruct Hn as [-> | [-> | [-> | [-> | [-> | ->]]]]]; reflexivity.
Qed.

(** C10, amended. When [AddRecord] of a non-empty payload is called with the
    cursor at [kBlockSize - kHeaderSize], the first record that is emitted
    is a [First] record without payload, which fills the block; the records
    after it start at the beginning of a block; and when the call succeeds
    they carry all the bytes of the payload. *)
Theorem AddRecord_header_only_first (w : Writer) p :
  block_offset_ w = kBlockSize - kHeaderSize ->
  p <> [] ->
  exists s w' e es',
    AddRecord_history w p = Ret (s, w', e :: es') /\
    e_type e = kFirstType /\ e_payload e = [] /\
    e_offset e = kBlockSize - kHeaderSize /\
    e_offset e + kHeaderSize + len (e_payload e) = kBlockSize /\
    Forall (fun e' => e_offset e' = 0) es' /\
    (ok s = true -> es' <> [] /\ concat (map (@e_payload _) es') = p).
Proof.
  intros Ho Hp.
  assert (Hc : cursor_ok w)
    by (unfold cursor_ok; rewrite Ho; unfold kBlockSize, kHeaderSize; lia).
  assert (Hs : start_offset w = kBlockSize - kHeaderSize)
    by (unfold start_offset; rewrite Ho; reflexivity).
  assert (Ha : avail_at w = 0) by (unfold avail_at; rewrite Hs; lia).
  assert (Hlen : 0 < len p) by (destruct p; [congruence|cbn; lia]).
  destruct (AddRecord_history_returns w p Hc) as (s & w' & es & H).
  pose proof (AddRecord_history_run H) as Hrun.
  destruct (LoopRun_offsets Hrun) as (e & es' & -> & Hoff & Hz & _).
  destruct (LoopRun_payload Hrun) as (rest & Hpay & Hrest).
  exists s, w', e, es'. split; [exact H|].
  destruct (fragment_type_part w p true) as (Hn & Ht); [lia|].
  destruct (LoopRun_inv Hrun) as (s1 & w1 & ptr1 & e1 & Hb & Hcases).
  apply AddRecord_body_inv in Hb. destruct Hb as (_ & _ & He & Hptr & _).
  rewrite Hn, Ha in He, Hptr. cbn [Z.to_nat firstn skipn] in He, Hptr.
  assert (Hee : e = e1).
  { destruct Hcases as [(_ & _ & _ & [= -> _]) | (_ & es1 & [= -> _] & _)];
      reflexivity. }
  rewrite <- Hee in He. clear Hee. subst ptr1.
  rewrite He in Hpay |- *. simpl_hist. rewrite Ht, Hs.
  split; [reflexivity|]. split; [reflexivity|]. split; [reflexivity|].
  split; [cbn [List.length Z.of_nat]; lia|]. split; [exact Hz|].
  intros Hok. split.
  - intros ->.
    destruct Hcases as [(Hstop & -> & _) | (_ & es1 & [= _ <-] & Hrun1)].
    + rewrite Hok in Hstop. cbn [andb] in Hstop. apply Z.ltb_ge in Hstop.
      lia.
    + destruct (LoopRun_offsets Hrun1) as (? & ? & Hnil & _). discriminate.
  - cbn [map concat app e_payload] in Hpay.
    rewrite (Hrest Hok), app_nil_r in Hpay. auto.
Qed.

End Framing.

(** ** What the writer hands to the file *)

Lemma header_bytes_fields (crc length type : Z) :
  0 <= crc < 2 ^ 32 -> 0 <= length <= 65535 -> 0 <= type < 256 ->
  List.length (header_bytes crc length type) = 7%nat /\
  header_crc (header_bytes crc length type) = crc /\
  header_length (header_bytes crc length type) = length /\
  header_type (header_bytes crc length type) = type.
Proof.
  intros Hc Hl Ht. split; [reflexivity|]. split; [|split].
  - unfold header_crc, header_bytes.
    change (firstn 4 (EncodeFixed32 crc ++ ?l)) with (EncodeFixed32 crc).
    apply DecodeLE_EncodeFixed32, Hc.
  - unfold header_length, header_bytes. cbn [EncodeFixed32 app skipn firstn DecodeLE].
    rewrite !Z_of_char_of_Z. Z.div_mod_to_equations. lia.
  - unfold header_type, header_bytes. cbn [EncodeFixed32 app nth].
    rewrite Z_of_char_of_Z. apply Z.mod_small, Ht.
Qed.

Lemma RecordType_code_range (t : RecordType) :
  0 <= RecordType_code t <= kMaxRecordType.
Proof. destruct t; cbn; lia. Qed.

Section Calls.

Context {Status : Type} {SO : StatusOps Status}.
Context {File : Type} {WF : WritableFile Status File}.
Context {CRC : Crc32c}.

Local Abbreviation RFile := (Recorded Status File).
Local Abbreviation Writer := (@Writer RFile).
Local Abbreviation Emission := (@Emission Status).
Local Abbreviation len l := (Z.of_nat (List.length l)).

(** *** Recording changes nothing

    The writer does on a recorded file what it does on the file itself. *)

Lemma EmitPhysicalRecord_forget (w : Writer) t data :
  EmitPhysicalRecord (forget w) t data =
  outcome_map (fun r => (fst r, forget (snd r))) (EmitPhysicalRecord w t data).
Proof.
  unfold EmitPhysicalRecord, assert, bind, type_crc_at.
  cbn [forget block_offset_ type_crc_ dest_].
  destruct (len data <=? 65535); [|reflexivity].
  destruct (block_offset_ w + kHeaderSize + len data <=? kBlockSize);
    [|reflexivity].
  cbn [Append Flush Recorded_WritableFile].
  destruct (Append (inner (dest_ w)) _) as [s1 f1].
  destruct (ok s1); [|reflexivity].
  cbn [inner]. destruct (Append f1 data) as [s2 f2].
  destruct (ok s2); [|reflexivity].
  cbn [inner]. destruct (Flush f2) as [s3 f3]. reflexivity.
Qed.

Lemma SwitchBlock_forget (w : Writer) :
  SwitchBlock (forget w) = outcome_map forget (SwitchBlock w).
Proof.
  unfold SwitchBlock, assert, bind. cbn [forget block_offset_ type_crc_ dest_].
  destruct (0 <=? kBlockSize - block_offset_ w); [|reflexivity].
  destruct (kBlockSize - block_offset_ w <? kHeaderSize); [|reflexivity].
  destruct (0 <? kBlockSize - block_offset_ w); [|reflexivity].
  cbn [Append Recorded_WritableFile].
  destruct (Append (inner (dest_ w)) _) as [s0 f0]. reflexivity.
Qed.

Lemma AddRecord_body_forget (w : Writer) ptr begin :
  AddRecord_body (forget w) ptr begin =
  outcome_map (fun r => match r with
                        | (s, w', ptr', e) => (s, forget w', ptr', e)
                        end)
              (AddRecord_body w ptr begin).
Proof.
  unfold AddRecord_body. rewrite SwitchBlock_forget.
  destruct (SwitchBlock w) as [w1| |]; [|reflexivity|reflexivity].
  cbn [outcome_map bind]. cbn [forget block_offset_].
  unfold assert.
  destruct (0 <=? kBlockSize - block_offset_ w1 - kHeaderSize);
    [|reflexivity].
  cbn [bind]. fold (forget w1). rewrite EmitPhysicalRecord_forget.
  destruct (EmitPhysicalRecord w1 _ _) as [[s w2]| |]; reflexivity.
Qed.

Lemma AddRecord_loop_forget fuel : forall (w : Writer) ptr begin,
  AddRecord_loop fuel (forget w) ptr begin =
  outcome_map (fun r => match r with
                        | (s, w', es) => (s, forget w', es)
                        end)
              (AddRecord_loop fuel w ptr begin).
Proof.
  induction fuel as [|fuel IH]; intros w ptr begin; [reflexivity|].
  cbn [AddRecord_loop]. rewrite AddRecord_body_forget.
  destruct (AddRecord_body w ptr begin) as [[[[s w1] ptr1] e]| |];
    [|reflexivity|reflexivity].
  cbn [outcome_map bind].
  destruct (ok s && (0 <? len ptr1)); [|reflexivity].
  rewrite IH.
  destruct (AddRecord_loop fuel w1 ptr1 false) as [[[s2 w2] es]| |];
    reflexivity.
Qed.

Lemma AddRecord_history_forget (w : Writer) slice :
  AddRecord_history (forget w) slice =
  outcome_map (fun r => match r with
                        | (s, w', es) => (s, forget w', es)
                        end)
              (AddRecord_history w slice).
Proof. apply AddRecord_loop_forget. Qed.

(** *** The calls of the writer *)

Lemma EmitPhysicalRecord_calls {w : Writer} {t data s w'} :
  EmitPhysicalRecord w t data = Ret (s, w') ->
  exists cs,
    calls (dest_ w') = calls (dest_ w) ++ cs /\
    EmitCalls (emitted_header w t data) data cs s.
Proof.
  unfold EmitPhysicalRecord, assert, bind.
  destruct (Z.leb_spec (len data) 65535); [|discriminate].
  destruct (Z.leb_spec (block_offset_ w + kHeaderSize + len data) kBlockSize);
    [|discriminate].
  change 255 with (Z.ones 8).
  rewrite Z.land_ones, Z.shiftr_div_pow2 by lia.
  change (2 ^ 8) with 256.
  fold (header_bytes (Mask (Extend (type_crc_at w t) data)) (len data)
                     (RecordType_code t)).
  fold (emitted_header w t data).
  cbn [Append Flush Recorded_WritableFile].
  destruct (Append (inner (dest_ w)) (emitted_header w t data)) as [s1 f1].
  destruct (ok s1) eqn:H1.
  - cbn [inner calls].
    destruct (Append f1 data) as [s2 f2].
    destruct (ok s2) eqn:H2.
    + cbn [inner calls].
      destruct (Flush f2) as [s3 f3]. intros Hret. ret_inj Hret. cbn [dest_ calls].
      eexists. rewrite <- !app_assoc. split; [reflexivity|].
      now apply EmitCalls_flush.
    + intros Hret. ret_inj Hret. cbn [dest_ calls].
      eexists. rewrite <- !app_assoc. split; [reflexivity|].
      now apply EmitCalls_payload.
  - intros Hret. ret_inj Hret. cbn [dest_ calls].
    eexists. split; [reflexivity|]. now apply EmitCalls_header.
Qed.

Lemma SwitchBlock_calls {w w1 : Writer} :
  SwitchBlock w = Ret w1 ->
  exists tr, calls (dest_ w1) = calls (dest_ w) ++ tr /\ TrailerCalls w tr.
Proof.
  unfold SwitchBlock, TrailerCalls, assert, bind.
  destruct (Z.leb_spec 0 (kBlockSize - block_offset_ w)); [|discriminate].
  destruct (Z.ltb_spec (kBlockSize - block_offset_ w) kHeaderSize).
  - destruct (Z.ltb_spec 0 (kBlockSize - block_offset_ w)).
    + rewrite trailer_literal_zeroes by lia.
      cbn [Append Recorded_WritableFile andb].
      destruct (Append (inner (dest_ w)) _) as [s0 f0].
      intros Hret. ret_inj Hret. cbn [dest_ calls snd]. eauto.
    + intros Hret. ret_inj Hret. cbn [dest_ andb]. exists []. rewrite app_nil_r. split; reflexivity.
  - intros Hret. ret_inj Hret. cbn [andb]. exists []. rewrite app_nil_r. split; reflexivity.
Qed.

Lemma AddRecord_body_calls {w : Writer} {ptr begin s w' ptr' e} :
  AddRecord_body w ptr begin = Ret (s, w', ptr', e) ->
  exists tr cs,
    calls (dest_ w') = calls (dest_ w) ++ tr ++ cs /\
    TrailerCalls w tr /\
    EmitCalls (emitted_header w (e_type e) (e_payload e)) (e_payload e) cs s.
Proof.
  unfold AddRecord_body. intros H.
  destruct (SwitchBlock w) as [w1| |] eqn:Hsw; try discriminate.
  destruct (SwitchBlock_calls Hsw) as (tr & Htr & Ht).
  apply SwitchBlock_inv in Hsw. destruct Hsw as (_ & _ & Hcrc).
  cbn [bind] in H. unfold assert at 1 in H.
  destruct (0 <=? kBlockSize - block_offset_ w1 - kHeaderSize);
    [|discriminate].
  cbn [bind] in H.
  destruct (EmitPhysicalRecord w1 _ _) as [[s1 w2]| |] eqn:Hem;
    try discriminate.
  cbn [bind] in H. ret_inj H.
  destruct (EmitPhysicalRecord_calls Hem) as (cs & Hcs & Hec).
  exists tr, cs. split; [|split; [exact Ht|]].
  - rewrite Hcs, Htr. now rewrite app_assoc.
  - cbn [e_type e_payload].
    unfold emitted_header, type_crc_at in *. rewrite Hcrc in Hec. exact Hec.
Qed.

Lemma EmitCalls_shape {hdr data cs s} :
  EmitCalls hdr data cs s ->
  (exists s1 cs', cs = CAppend hdr s1 :: cs') /\
  (exists cs0 c, cs = cs0 ++ [c] /\ call_status c = s).
Proof.
  destruct 1 as [s1 H1|s1 s2 H1 H2|s1 s2 s3 H1 H2]; split; eauto.
  - exists [], (CAppend hdr s1). auto.
  - exists [CAppend hdr s1], (CAppend data s2). auto.
  - exists [CAppend hdr s1; CAppend data s2], (CFlush s3). auto.
Qed.

Lemma InitTypeCrc_at (w : Writer) t :
  type_crc_ w = InitTypeCrc ->
  type_crc_at w t = Value [char_of_Z (RecordType_code t)].
Proof.
  unfold type_crc_at. intros ->. destruct t; reflexivity.
Qed.

Lemma emitted_header_fields (w : Writer) t data :
  type_crc_ w = InitTypeCrc -> len data <= 65535 ->
  let crc := Mask (Extend (Value [char_of_Z (RecordType_code t)]) data) in
  let hdr := emitted_header w t data in
  hdr = header_bytes crc (len data) (RecordType_code t) /\
  List.length hdr = 7%nat /\ header_crc hdr = crc /\
  header_length hdr = len data /\ header_type hdr = RecordType_code t.
Proof.
  intros Hcrc Hlen crc hdr. subst crc hdr. unfold emitted_header.
  rewrite (InitTypeCrc_at w t Hcrc). split; [reflexivity|].
  apply header_bytes_fields.
  - apply Mask_range.
  - lia.
  - pose proof (RecordType_code_range t). unfold kMaxRecordType in *.
    cbn in *. lia.
Qed.

(** C1. The first thing that [EmitPhysicalRecord] hands to the file is a
    header of 7 bytes: bytes 0-3 are the masked checksum, low byte first,
    where the checksum is the entry of the table for the type, that is the
    checksum of the single byte of the type code, extended over the payload;
    bytes 4-5 are the length of the payload, low byte first; byte 6 is the
    type code. *)
Theorem EmitPhysicalRecord_header (w : Writer) t data :
  type_crc_ w = InitTypeCrc ->
  0 <= block_offset_ w ->
  len data <= 65535 ->
  block_offset_ w + kHeaderSize + len data <= kBlockSize ->
  let crc := Mask (Extend (Value [char_of_Z (RecordType_code t)]) data) in
  exists s w' hdr s1 cs,
    EmitPhysicalRecord w t data = Ret (s, w') /\
    calls (dest_ w') = calls (dest_ w) ++ CAppend hdr s1 :: cs /\
    List.length hdr = 7%nat /\
    firstn 4 hdr = EncodeFixed32 crc /\ header_crc hdr = crc /\
    firstn 2 (skipn 4 hdr) =
      [char_of_Z (len data mod 256); char_of_Z (len data / 256)] /\
    header_length hdr = len data /\
    skipn 6 hdr = [char_of_Z (RecordType_code t)] /\
    header_type hdr = RecordType_code t /\
    type_crc_at w t = Value [char_of_Z (RecordType_code t)].
Proof.
  intros Hcrc _ H1 H2 crc.
  destruct (EmitPhysicalRecord_returns w t data H1 H2) as (s & d & H).
  destruct (EmitPhysicalRecord_calls H) as (cs & Hcs & Hec).
  destruct (EmitCalls_shape Hec) as ((s1 & cs' & ->) & _).
  destruct (emitted_header_fields w t data Hcrc H1) as (Hh & Hl & Hc & Hn & Ht).
  eexists s, _, (emitted_header w t data), s1, cs'.
  split; [exact H|]. split; [exact Hcs|].
  split; [exact Hl|]. split; [rewrite Hh; reflexivity|].
  split; [exact Hc|]. split; [rewrite Hh; reflexivity|].
  split; [exact Hn|]. split; [rewrite Hh; reflexivity|].
  split; [exact Ht|]. apply InitTypeCrc_at, Hcrc.
Qed.

(** The last call on the file during a run of the loop is the last call of
    its last emission, and the run returns the status of that call. *)
Lemma LoopRun_last_call {w : Writer} {ptr begin s w' es} :
  LoopRun w ptr begin s w' es ->
  exists cs c,
    calls (dest_ w') = calls (dest_ w) ++ cs ++ [c] /\ call_status c = s.
Proof.
  induction 1 as [w ptr begin s w' ptr' e Hb Hc
                 |w ptr begin s1 w1 ptr1 e s w' es Hb Hc Hrun IH].
  - destruct (AddRecord_body_calls Hb) as (tr & cs & Hcs & _ & Hec).
    destruct (EmitCalls_shape Hec) as (_ & cs0 & c & -> & Hst).
    exists (tr ++ cs0), c. rewrite Hcs, <- !app_assoc. auto.
  - destruct (AddRecord_body_calls Hb) as (tr & cs & Hcs & _ & _).
    destruct IH as (cs' & c & Hcs' & Hst).
    exists (tr ++ cs ++ cs'), c. rewrite Hcs', Hcs, <- !app_assoc. auto.
Qed.

(** C5. [EmitPhysicalRecord] calls the file for the header, then, if that
    succeeds, for the payload, then, if that succeeds, for the flush, and
    returns the status of the last call it makes: the first one that fails,
    or the status of the flush. [AddRecord] returns the status of its last
    emission; all emissions before the last one succeeded, so the loop stops
    at the first emission that fails; the payloads that were emitted are a
    prefix of the slice, the whole slice when the call succeeds; and the
    last call on the file is the one whose status is returned. *)
Theorem first_failure_is_returned :
  (forall (w : Writer) t data,
     0 <= block_offset_ w ->
     len data <= 65535 ->
     block_offset_ w + kHeaderSize + len data <= kBlockSize ->
     exists s w' cs,
       EmitPhysicalRecord w t data = Ret (s, w') /\
       calls (dest_ w') = calls (dest_ w) ++ cs /\
       EmitCalls (emitted_header w t data) data cs s) /\
  (forall (w : Writer) p,
     0 <= block_offset_ w <= kBlockSize ->
     exists s w' es es0 e rest cs c,
       AddRecord_history w p = Ret (s, w', es) /\
       AddRecord w p = Ret (s, w') /\
       es = es0 ++ [e] /\
       Forall (fun e0 => ok (e_status e0) = true) es0 /\
       e_status e = s /\
       p = concat (map (@e_payload _) es) ++ rest /\
       (ok s = true -> rest = []) /\
       calls (dest_ w') = calls (dest_ w) ++ cs ++ [c] /\
       call_status c = s).
Proof.
  split.
  - intros w t data _ H1 H2.
    destruct (EmitPhysicalRecord_returns w t data H1 H2) as (s & d & H).
    destruct (EmitPhysicalRecord_calls H) as (cs & Hcs & Hec).
    eexists _, _, _. eauto.
  - intros w p Hc.
    destruct (AddRecord_history_returns w p Hc) as (s & w' & es & H).
    pose proof (AddRecord_history_run H) as Hrun.
    destruct (LoopRun_status Hrun) as (es0 & e & Hes & Hok & Hs).
    destruct (LoopRun_payload Hrun) as (rest & Hp & Hr).
    destruct (LoopRun_last_call Hrun) as (cs & c & Hcs & Hst).
    exists s, w', es, es0, e, rest, cs, c.
    repeat split; auto; try apply Hc. unfold AddRecord. rewrite H. reflexivity.
Qed.

(** C2. In every sequence of calls of [AddRecord], every record starts at a
    cursor that leaves room for its header in the block. In every iteration
    of the loop that finds between 1 and 6 bytes left in the block, the
    first call on the file appends that many zero bytes, and the record of
    the iteration starts at cursor 0: the calls that follow are those of the
    emission, which begin with the append of the header. *)
Theorem header_never_straddles :
  (forall (w : Writer) (slices : list (list byte)),
     0 <= block_offset_ w <= kBlockSize ->
     exists ss w' es,
       AddRecords w slices = Ret (ss, w', es) /\
       Forall (fun e => 0 <= e_offset e /\
                        kHeaderSize <= kBlockSize - e_offset e) es) /\
  (forall (w : Writer) (ptr : list byte) (begin : bool),
     let leftover := kBlockSize - block_offset_ w in
     0 < leftover < kHeaderSize ->
     exists s w' ptr' e s0 hdr s1 cs,
       AddRecord_body w ptr begin = Ret (s, w', ptr', e) /\
       calls (dest_ w') =
         calls (dest_ w) ++
         CAppend (repeat x00 (Z.to_nat leftover)) s0 ::
         CAppend hdr s1 :: cs /\
       len (repeat x00 (Z.to_nat leftover)) = leftover /\
       e_offset e = 0 /\
       hdr = emitted_header w (e_type e) (e_payload e) /\
       EmitCalls hdr (e_payload e) (CAppend hdr s1 :: cs) s).
Proof.
  split.
  - intros w slices Hc.
    destruct (AddRecords_well_placed slices w Hc)
      as (ss & w' & es & H & _ & _ & Hwp).
    exists ss, w', es. split; [exact H|].
    eapply Forall_impl; [|exact Hwp].
    intros e (Ha & Hb & Hd). split; [exact Ha|]. lia.
  - intros w ptr begin leftover Hl. subst leftover.
    assert (Hc : cursor_ok w)
      by (unfold cursor_ok, kHeaderSize, kBlockSize in *; lia).
    destruct (AddRecord_body_returns w ptr begin Hc) as (s & w' & ptr' & e & Hb).
    destruct (AddRecord_body_calls Hb) as (tr & cs & Hcs & Htr & Hec).
    unfold TrailerCalls in Htr.
    destruct (Z.ltb_spec (kBlockSize - block_offset_ w) kHeaderSize); [|lia].
    destruct (Z.ltb_spec 0 (kBlockSize - block_offset_ w)); [|lia].
    cbn [andb] in Htr. destruct Htr as (s0 & ->).
    destruct (EmitCalls_shape Hec) as ((s1 & cs' & ->) & _).
    exists s, w', ptr', e, s0, (emitted_header w (e_type e) (e_payload e)), s1, cs'.
    split; [exact Hb|]. split; [exact Hcs|].
    split; [rewrite repeat_length; lia|].
    split; [|split; [reflexivity|exact Hec]].
    apply AddRecord_body_inv in Hb. destruct Hb as (_ & _ & -> & _).
    cbn [e_offset]. unfold start_offset.
    destruct (Z.ltb_spec (kBlockSize - block_offset_ w) kHeaderSize);
      [reflexivity|lia].
Qed.

Lemma EmitPhysicalRecord_succeeds {w : Writer} {t data s w'} :
  always_succeeds (File := File) ->
  EmitPhysicalRecord w t data = Ret (s, w') ->
  exists s1 s2,
    ok s = true /\
    calls (dest_ w') =
      calls (dest_ w) ++
      [CAppend (emitted_header w t data) s1; CAppend data s2; CFlush s].
Proof.
  intros [Ha Hf] H.
  destruct (EmitPhysicalRecord_calls H) as (cs & Hcs & Hec).
  revert H. unfold EmitPhysicalRecord, assert, bind.
  destruct (len data <=? 65535); [|discriminate].
  destruct (block_offset_ w + kHeaderSize + len data <=? kBlockSize);
    [|discriminate].
  cbn [Append Flush Recorded_WritableFile].
  match goal with |- context [Append (inner (dest_ w)) ?b] =>
    pose proof (Ha (inner (dest_ w)) b) as H1;
    destruct (Append (inner (dest_ w)) b) as [s1 f1] end.
  cbn [fst] in H1. rewrite H1. cbn [inner calls].
  pose proof (Ha f1 data) as H2.
  destruct (Append f1 data) as [s2 f2]. cbn [fst] in H2. rewrite H2.
  cbn [inner calls].
  pose proof (Hf f2) as H3.
  destruct (Flush f2) as [s3 f3]. cbn [fst] in H3.
  intros H'. ret_inj H'.
  destruct Hec as [s1' Hk|s1' s2' _ Hk|s1' s2' s3' _ _]; try congruence.
  exists s1', s2'. auto.
Qed.

(** C7. [AddRecord] on a fresh writer, of a payload of at most 65535 bytes
    that fits in the block behind its header, emits exactly one record, at
    cursor 0 and of type [Full], with the whole payload; the header that the
    file receives for it has the length of the payload in its length field
    and the masked checksum of the type byte of [Full] extended over the
    payload in its checksum field. *)
Theorem AddRecord_single_full (dest : RFile) p :
  len p <= 65535 ->
  kHeaderSize + len p <= kBlockSize ->
  exists s w' e hdr s1 cs,
    AddRecord_history (Writer_new dest) p = Ret (s, w', [e]) /\
    e_offset e = 0 /\ e_type e = kFullType /\ e_payload e = p /\
    e_status e = s /\
    calls (dest_ w') = calls dest ++ CAppend hdr s1 :: cs /\
    EmitCalls hdr p (CAppend hdr s1 :: cs) s /\
    List.length hdr = 7%nat /\
    header_type hdr = RecordType_code kFullType /\
    header_length hdr = len p /\
    header_crc hdr =
      Mask (Extend (Value [char_of_Z (RecordType_code kFullType)]) p).
Proof.
  intros H16 Hfit. set (w := Writer_new dest).
  assert (Hc : cursor_ok w) by (unfold cursor_ok, kBlockSize; cbn; lia).
  assert (Hs : start_offset w = 0) by reflexivity.
  assert (Ha : len p <= avail_at w)
    by (unfold avail_at; rewrite Hs; lia).
  destruct (fragment_type_whole w p true Ha) as (Hn & Ht).
  destruct (AddRecord_history_returns w p Hc) as (s & w' & es & H).
  pose proof (AddRecord_history_run H) as Hrun.
  destruct (LoopRun_inv Hrun) as (s1 & w1 & ptr1 & e & Hb & Hcases).
  destruct (AddRecord_body_calls Hb) as (tr & cs & Hcs & Htr & Hec).
  apply AddRecord_body_inv in Hb. destruct Hb as (_ & _ & He & Hptr & _).
  rewrite Hn, Nat2Z.id in He, Hptr.
  rewrite firstn_all in He. rewrite skipn_all in Hptr.
  rewrite Ht, Hs in He. subst ptr1.
  destruct Hcases as [(_ & -> & -> & ->) | (Hgo & _)];
    [|rewrite andb_false_r in Hgo; discriminate].
  rewrite He in Hec. cbn [e_type e_payload] in Hec.
  assert (tr = []) as -> by exact Htr.
  destruct (EmitCalls_shape Hec) as ((s0 & cs' & ->) & _).
  destruct (emitted_header_fields w kFullType p eq_refl H16)
    as (_ & Hl & Hcrc & Hlen & Hty).
  exists s1, w1, e, (emitted_header w kFullType p), s0, cs'.
  rewrite He at 2 3 4 5. cbn [e_offset e_type e_payload e_status].
  split; [exact H|]. repeat split; auto.
Qed.

Lemma EmitCalls_succeeded {hdr data cs s} :
  EmitCalls hdr data cs s -> ok s = true ->
  exists s1 s2, cs = [CAppend hdr s1; CAppend data s2; CFlush s].
Proof.
  destruct 1 as [s1 H1|s1 s2 H1 H2|s1 s2 s3 H1 H2]; intros Hok;
    try congruence; eauto.
Qed.

Lemma AddRecord_body_succeeds {w : Writer} {ptr begin s w' ptr' e} :
  always_succeeds (File := File) ->
  AddRecord_body w ptr begin = Ret (s, w', ptr', e) ->
  ok s = true.
Proof.
  intros Hok. unfold AddRecord_body. intros H.
  destruct (SwitchBlock w) as [w1| |]; try discriminate.
  cbn [bind] in H. unfold assert at 1 in H.
  destruct (0 <=? kBlockSize - block_offset_ w1 - kHeaderSize);
    [|discriminate].
  cbn [bind] in H.
  destruct (EmitPhysicalRecord w1 _ _) as [[s1 w2]| |] eqn:Hem;
    try discriminate.
  cbn [bind] in H. ret_inj H.
  destruct (EmitPhysicalRecord_succeeds Hok Hem) as (? & ? & H & _).
  exact H.
Qed.

(** C8. On a file that never fails, [AddRecord] of a payload of 40000 bytes
    on a fresh writer emits two records: a [First] record with the first
    32761 bytes and a [Last] record with the other 7239 bytes. The file
    receives header, payload and flush of the first, then header, payload
    and flush of the second, and nothing in between: the first header and
    payload are 32768 bytes, so the second header starts with the second
    block. *)
Theorem AddRecord_40000 (dest : RFile) p :
  always_succeeds (File := File) ->
  len p = 40000 ->
  let p1 := firstn (Z.to_nat (kBlockSize - kHeaderSize)) p in
  let p2 := skipn (Z.to_nat (kBlockSize - kHeaderSize)) p in
  exists s w' hdr1 hdr2 s1 s2 s3 s4 s5,
    AddRecord_history (Writer_new dest) p =
      Ret (s, w',
           [ {| e_offset := 0; e_type := kFirstType;
                e_payload := p1; e_status := s3 |};
             {| e_offset := 0; e_type := kLastType;
                e_payload := p2; e_status := s |} ]) /\
    ok s = true /\
    len p1 = 32761 /\ len p2 = 7239 /\ p1 ++ p2 = p /\
    calls (dest_ w') =
      calls dest ++
      [ CAppend hdr1 s1; CAppend p1 s2; CFlush s3;
        CAppend hdr2 s4; CAppend p2 s5; CFlush s ] /\
    List.length hdr1 = 7%nat /\ List.length hdr2 = 7%nat /\
    header_type hdr1 = RecordType_code kFirstType /\
    header_length hdr1 = 32761 /\
    header_type hdr2 = RecordType_code kLastType /\
    header_length hdr2 = 7239 /\
    len (hdr1 ++ p1) = 32768 /\
    block_offset_ w' = kHeaderSize + 7239.
Proof.
  intros Hok Hlen p1 p2. set (w := Writer_new dest).
  assert (Hc : cursor_ok w) by (unfold cursor_ok, kBlockSize; cbn; lia).
  assert (Ha : avail_at w = kBlockSize - kHeaderSize) by reflexivity.
  assert (Hl1 : len p1 = 32761)
    by (subst p1; rewrite length_firstn; unfold kBlockSize, kHeaderSize; lia).
  assert (Hl2 : len p2 = 7239)
    by (subst p2; rewrite length_skipn; unfold kBlockSize, kHeaderSize; lia).
  destruct (fragment_type_part w p true) as (Hn & Ht);
    [rewrite Ha; unfold kBlockSize, kHeaderSize; lia|].
  destruct (AddRecord_history_returns w p Hc) as (s & w' & es & H).
  pose proof (AddRecord_history_run H) as Hrun.
  (* the first iteration *)
  destruct (LoopRun_inv Hrun) as (sa & w1 & ptr1 & e1 & Hb1 & Hcases).
  pose proof (AddRecord_body_succeeds Hok Hb1) as Hoka.
  destruct (AddRecord_body_calls Hb1) as (tr1 & cs1 & Hcs1 & Htr1 & Hec1).
  apply AddRecord_body_inv in Hb1.
  destruct Hb1 as (_ & _ & He1 & Hptr1 & Ho1 & Hcrc1).
  rewrite Hn, Ha in He1, Hptr1, Ho1. rewrite Ht in He1.
  change (start_offset w) with 0 in He1, Ho1.
  fold p1 in He1. fold p2 in Hptr1. subst ptr1.
  assert (tr1 = []) as -> by exact Htr1.
  rewrite He1 in Hec1. cbn [e_type e_payload] in Hec1.
  destruct (EmitCalls_succeeded Hec1 Hoka) as (s1 & s2 & ->).
  destruct Hcases as [(Hstop & _) | (_ & es1 & -> & Hrun2)].
  { rewrite Hoka in Hstop. cbn [andb] in Hstop. apply Z.ltb_ge in Hstop. lia. }
  (* the second iteration *)
  assert (Hc1 : block_offset_ w1 = kBlockSize) by (rewrite Ho1; lia).
  assert (Hs1 : start_offset w1 = 0)
    by (unfold start_offset; rewrite Hc1; reflexivity).
  assert (Ha1 : len p2 <= avail_at w1)
    by (unfold avail_at; rewrite Hs1, Hl2; unfold kBlockSize, kHeaderSize; lia).
  destruct (fragment_type_whole w1 p2 false Ha1) as (Hn2 & Ht2).
  destruct (LoopRun_inv Hrun2) as (sb & w2 & ptr2 & e2 & Hb2 & Hcases).
  pose proof (AddRecord_body_succeeds Hok Hb2) as Hokb.
  destruct (AddRecord_body_calls Hb2) as (tr2 & cs2 & Hcs2 & Htr2 & Hec2).
  apply AddRecord_body_inv in Hb2.
  destruct Hb2 as (_ & _ & He2 & Hptr2 & Ho2 & Hcrc2).
  rewrite Hn2, Nat2Z.id in He2, Hptr2.
  rewrite firstn_all in He2. rewrite skipn_all in Hptr2.
  rewrite Ht2, Hs1 in He2. rewrite Hs1, Hn2, Hl2 in Ho2. subst ptr2.
  assert (tr2 = []) as ->.
  { unfold TrailerCalls in Htr2. rewrite Hc1 in Htr2. exact Htr2. }
  rewrite He2 in Hec2. cbn [e_type e_payload] in Hec2.
  destruct (EmitCalls_succeeded Hec2 Hokb) as (s4 & s5 & ->).
  destruct Hcases as [(_ & -> & -> & ->) | (Hgo & _)];
    [|rewrite andb_false_r in Hgo; discriminate].
  (* the headers *)
  destruct (emitted_header_fields w kFirstType p1 eq_refl)
    as (_ & Hh1 & _ & Hhl1 & Hht1); [lia|].
  destruct (emitted_header_fields w1 kLastType p2 Hcrc1)
    as (_ & Hh2 & _ & Hhl2 & Hht2); [lia|].
  exists sb, w2, (emitted_header w kFirstType p1),
    (emitted_header w1 kLastType p2), s1, s2, sa, s4, s5.
  rewrite <- He1, <- He2.
  split; [exact H|]. split; [exact Hokb|].
  split; [exact Hl1|]. split; [exact Hl2|].
  split; [apply firstn_skipn|].
  split.
  { rewrite Hcs2, Hcs1. cbn [app]. rewrite <- app_assoc. reflexivity. }
  split; [exact Hh1|]. split; [exact Hh2|].
  split; [exact Hht1|]. split; [rewrite Hhl1; exact Hl1|].
  split; [exact Hht2|]. split; [rewrite Hhl2; exact Hl2|].
  split; [rewrite length_app; lia|].
  rewrite Ho2. reflexivity.
Qed.

End Calls.

(** ** The writer at work *)

Section Runs.

Import Sample.

Local Abbreviation len l := (Z.of_nat (List.length l)).

(** The check value of CRC-32C: the checksum of the digits 1 to 9. *)
Example crc_check_value :
  Value [x31; x32; x33; x34; x35; x36; x37; x38; x39] = 0xE3069283.
Proof. vm_compute. reflexivity. Qed.

Example fresh_two_bytes :
  AddRecord_history (Writer_new empty_file) [x61; x62] =
  Ret (OK,
       {| dest_ := {| written := [xa4; x98; x44; x82; x02; x00; x01; x61; x62];
                      script := [] |};
          block_offset_ := 9;
          type_crc_ := InitTypeCrc |},
       [{| e_offset := 0; e_type := kFullType;
           e_payload := [x61; x62]; e_status := OK |}]).
Proof. vm_compute. reflexivity. Qed.

Example resume_at_100 :
  block_offset_ (Writer_resume empty_file (32768 + 100)) = 100.
Proof. reflexivity. Qed.

(** In C1, a writer on a file whose second call fails. *)
Lemma EmitPhysicalRecord_header_witness :
  type_crc_ (Writer_new (log_failing [true; false])) = InitTypeCrc /\
  0 <= block_offset_ (Writer_new (log_failing [true; false])) /\
  len [x61; x62] <= 65535 /\
  block_offset_ (Writer_new (log_failing [true; false])) + kHeaderSize
    + len [x61; x62] <= kBlockSize /\
  exists s w' hdr s1 cs,
    EmitPhysicalRecord (Writer_new (log_failing [true; false]))
                       kFirstType [x61; x62] = Ret (s, w') /\
    calls (dest_ w') = [] ++ CAppend hdr s1 :: cs /\
    List.length hdr = 7%nat /\
    header_crc hdr =
      Mask (Extend (Value [char_of_Z (RecordType_code kFirstType)])
                   [x61; x62]) /\
    header_length hdr = 2 /\
    header_type hdr = 2.
Proof.
  assert (H1 : len [x61; x62] <= 65535) by (cbn; lia).
  assert (H2 : block_offset_ (Writer_new (log_failing [true; false]))
               + kHeaderSize + len [x61; x62] <= kBlockSize)
    by (unfold kHeaderSize, kBlockSize; cbn; lia).
  assert (H0 : 0 <= block_offset_ (Writer_new (log_failing [true; false])))
    by (cbn; lia).
  split; [reflexivity|]. split; [exact H0|].
  split; [exact H1|]. split; [exact H2|].
  destruct (EmitPhysicalRecord_header
              (Writer_new (log_failing [true; false])) kFirstType [x61; x62]
              eq_refl H0 H1 H2)
    as (s & w' & hdr & s1 & cs & E & Hc & Hl & _ & Hcrc & _ & Hn & _ & Ht & _).
  exists s, w', hdr, s1, cs. auto 10.
Defined.

(** In C4, the append of the header fails. *)
Lemma EmitPhysicalRecord_advances_cursor_witness :
  0 <= block_offset_ (Writer_resume (failing_file [false]) 100) /\
  len [x61; x62; x63] <= 65535 /\
  block_offset_ (Writer_resume (failing_file [false]) 100) + kHeaderSize
    + len [x61; x62; x63] <= kBlockSize /\
  exists s w',
    EmitPhysicalRecord (Writer_resume (failing_file [false]) 100)
                       kFullType [x61; x62; x63] = Ret (s, w') /\
    block_offset_ w' =
      block_offset_ (Writer_resume (failing_file [false]) 100)
      + kHeaderSize + len [x61; x62; x63].
Proof.
  assert (H1 : len [x61; x62; x63] <= 65535) by (cbn; lia).
  assert (H2 : block_offset_ (Writer_resume (failing_file [false]) 100)
               + kHeaderSize + len [x61; x62; x63] <= kBlockSize)
    by (unfold kHeaderSize, kBlockSize; cbn; lia).
  assert (H0 : 0 <= block_offset_ (Writer_resume (failing_file [false]) 100))
    by (cbn; lia).
  split; [exact H0|]. split; [exact H1|]. split; [exact H2|].
  apply (EmitPhysicalRecord_advances_cursor
           (Writer_resume (failing_file [false]) 100) kFullType
           [x61; x62; x63] H0 H1 H2).
Defined.

Example header_append_fails :
  EmitPhysicalRecord (Writer_resume (failing_file [false]) 100)
                     kFullType [x61; x62; x63] =
  Ret (IOError,
       {| dest_ := empty_file; block_offset_ := 110;
          type_crc_ := InitTypeCrc |}).
Proof. vm_compute. reflexivity. Qed.

(** In C2, a sequence of three records from a writer that resumes a file of
    32765 bytes, and an iteration with 3 bytes left in the block. *)
Lemma header_never_straddles_witness :
  0 <= block_offset_ (Writer_resume log0 32765) <= kBlockSize /\
  0 < kBlockSize - block_offset_ (Writer_resume log0 32765) < kHeaderSize /\
  (exists ss w' es,
     AddRecords (Writer_resume log0 32765) [[x61]; []; [x62; x63]] =
       Ret (ss, w', es) /\
     Forall (fun e => 0 <= e_offset e /\
                      kHeaderSize <= kBlockSize - e_offset e) es) /\
  (exists s w' ptr' e s0 hdr s1 cs,
     AddRecord_body (Writer_resume log0 32765) [x61] true =
       Ret (s, w', ptr', e) /\
     calls (dest_ w') =
       [] ++ CAppend (repeat x00 (Z.to_nat (kBlockSize - 32765))) s0 ::
       CAppend hdr s1 :: cs /\
     e_offset e = 0).
Proof.
  assert (H1 : 0 <= block_offset_ (Writer_resume log0 32765) <= kBlockSize)
    by (unfold kBlockSize; cbn; lia).
  assert (H2 : 0 < kBlockSize - block_offset_ (Writer_resume log0 32765)
               < kHeaderSize)
    by (unfold kBlockSize, kHeaderSize; cbn; lia).
  split; [exact H1|]. split; [exact H2|].
  destruct (@header_never_straddles Status _ File _ _) as [Ha Hb]. split.
  - apply (Ha (Writer_resume log0 32765) [[x61]; []; [x62; x63]] H1).
  - destruct (Hb (Writer_resume log0 32765) [x61] true H2)
      as (s & w' & ptr' & e & s0 & hdr & s1 & cs & E & Hc & _ & Ho & _).
    exists s, w', ptr', e, s0, hdr, s1, cs. auto.
Defined.

Example fragments_of_three_bytes :
  match AddRecord_history (Writer_resume empty_file 32760) [x61; x62; x63]
  with
  | Ret (s, w', es) =>
      (s, block_offset_ w',
       map (fun e => (e_offset e, e_type e, e_payload e)) es) =
      (OK, 9, [(32760, kFirstType, [x61]); (0, kLastType, [x62; x63])])
  | _ => False
  end.
Proof. vm_compute. reflexivity. Qed.

(** In C5, the append of the payload fails in [EmitPhysicalRecord], and
    the flush of the first of two fragments fails in [AddRecord]. *)
Lemma first_failure_is_returned_witness :
  0 <= block_offset_ (Writer_new (log_failing [true; false])) /\
  len [x61] <= 65535 /\
  block_offset_ (Writer_new (log_failing [true; false])) + kHeaderSize
    + len [x61] <= kBlockSize /\
  0 <= block_offset_ (Writer_resume (log_failing [true; true; false]) 32760)
    <= kBlockSize /\
  (exists s w' cs,
     EmitPhysicalRecord (Writer_new (log_failing [true; false]))
                        kFullType [x61] = Ret (s, w') /\
     calls (dest_ w') = [] ++ cs /\
     EmitCalls (emitted_header (Writer_new (log_failing [true; false]))
                               kFullType [x61]) [x61] cs s) /\
  (exists s w' es es0 e rest,
     AddRecord (Writer_resume (log_failing [true; true; false]) 32760)
               [x61; x62; x63] = Ret (s, w') /\
     AddRecord_history (Writer_resume (log_failing [true; true; false]) 32760)
                       [x61; x62; x63] = Ret (s, w', es) /\
     es = es0 ++ [e] /\ e_status e = s /\
     [x61; x62; x63] = concat (map (@e_payload _) es) ++ rest).
Proof.
  assert (H1 : len [x61] <= 65535) by (cbn; lia).
  assert (H2 : block_offset_ (Writer_new (log_failing [true; false]))
               + kHeaderSize + len [x61] <= kBlockSize)
    by (unfold kHeaderSize, kBlockSize; cbn; lia).
  assert (H3 : 0 <= block_offset_
                      (Writer_resume (log_failing [true; true; false]) 32760)
               <= kBlockSize)
    by (unfold kBlockSize; cbn; lia).
  assert (H0 : 0 <= block_offset_ (Writer_new (log_failing [true; false])))
    by (cbn; lia).
  split; [exact H0|].
  split; [exact H1|]. split; [exact H2|]. split; [exact H3|].
  destruct (@first_failure_is_returned Status _ File _ _) as [Ha Hb]. split.
  - apply (Ha (Writer_new (log_failing [true; false])) kFullType [x61]
              H0 H1 H2).
  - destruct (Hb (Writer_resume (log_failing [true; true; false]) 32760)
                 [x61; x62; x63] H3)
      as (s & w' & es & es0 & e & rest & cs & c & E1 & E2 & E3 & _ & E4
          & E5 & _).
    exists s, w', es, es0, e, rest. auto.
Defined.

Example flush_of_first_fragment_fails :
  match AddRecord_history (Writer_resume (log_failing [true; true; false]) 32760)
                          [x61; x62; x63]
  with
  | Ret (s, w', es) =>
      (s, block_offset_ w', map (@call_status _) (calls (dest_ w')),
       map (fun e => (e_offset e, e_type e, e_payload e, e_status e)) es) =
      (IOError, 32768, [OK; OK; IOError],
       [(32760, kFirstType, [x61], IOError)])
  | _ => False
  end.
Proof. vm_compute. reflexivity. Qed.

(** C6 as stated: a writer that resumes a file of 32765 bytes has 3 bytes
    left in its block; [AddRecord] of the empty slice emits one [Full] record
    of length 0, and the cursor goes from 32765 to 7, which is not 32765 + 7:
    the record is in the next block. *)
Lemma AddRecord_empty_counterexample :
  exists s w' e,
    AddRecord_history (Writer_resume empty_file 32765) [] = Ret (s, w', [e]) /\
    AddRecord (Writer_resume empty_file 32765) [] = Ret (s, w') /\
    e_type e = kFullType /\ e_payload e = [] /\
    block_offset_ (Writer_resume empty_file 32765) = 32765 /\
    block_offset_ w' = 7 /\
    block_offset_ w' <>
      block_offset_ (Writer_resume empty_file 32765) + kHeaderSize.
Proof.
  vm_compute. eexists _, _, _.
  repeat split; try reflexivity. discriminate.
Qed.

(** For C6 as amended, the same writer: the record is in the next
    block. *)
Lemma AddRecord_empty_witness :
  0 <= block_offset_ (Writer_resume empty_file 32765) <= kBlockSize /\
  exists s w' e,
    AddRecord_history (Writer_resume empty_file 32765) [] = Ret (s, w', [e]) /\
    e_type e = kFullType /\ e_payload e = [] /\
    block_offset_ w' = kHeaderSize.
Proof.
  assert (H1 : 0 <= block_offset_ (Writer_resume empty_file 32765)
               <= kBlockSize)
    by (unfold kBlockSize; cbn; lia).
  split; [exact H1|].
  destruct (AddRecord_empty (Writer_resume empty_file 32765) H1)
    as (s & w' & e & E & Ht & Hp & _ & _ & _ & _ & Hnew).
  exists s, w', e. repeat split; auto.
  apply Hnew. unfold kBlockSize, kHeaderSize. cbn. lia.
Defined.

(** In C7, two bytes. *)
Lemma AddRecord_single_full_witness :
  len [x61; x62] <= 65535 /\
  kHeaderSize + len [x61; x62] <= kBlockSize /\
  exists s w' e hdr s1 cs,
    AddRecord_history (Writer_new log0) [x61; x62] = Ret (s, w', [e]) /\
    e_type e = kFullType /\ e_payload e = [x61; x62] /\
    calls (dest_ w') = calls log0 ++ CAppend hdr s1 :: cs /\
    header_length hdr = 2 /\
    header_crc hdr =
      Mask (Extend (Value [char_of_Z (RecordType_code kFullType)])
                   [x61; x62]).
Proof.
  assert (H1 : len [x61; x62] <= 65535) by (cbn; lia).
  assert (H2 : kHeaderSize + len [x61; x62] <= kBlockSize)
    by (unfold kHeaderSize, kBlockSize; cbn; lia).
  split; [exact H1|]. split; [exact H2|].
  destruct (AddRecord_single_full log0 [x61; x62] H1 H2)
    as (s & w' & e & hdr & s1 & cs & E & _ & Ht & Hp & _ & Hc & _ & _ & _
        & Hl & Hcrc).
  exists s, w', e, hdr, s1, cs. repeat split; auto.
Defined.

(** In C8, 40000 bytes [x61] on a file in memory. *)
Lemma AddRecord_40000_witness :
  @always_succeeds Status _ MemFile _ /\
  len (repeat x61 (Z.to_nat 40000)) = 40000 /\
  exists s w' s3,
    AddRecord_history (Writer_new mem0) (repeat x61 (Z.to_nat 40000)) =
      Ret (s, w',
           [ {| e_offset := 0; e_type := kFirstType;
                e_payload := firstn (Z.to_nat (kBlockSize - kHeaderSize))
                                    (repeat x61 (Z.to_nat 40000));
                e_status := s3 |};
             {| e_offset := 0; e_type := kLastType;
                e_payload := skipn (Z.to_nat (kBlockSize - kHeaderSize))
                                   (repeat x61 (Z.to_nat 40000));
                e_status := s |} ]) /\
    block_offset_ w' = kHeaderSize + 7239.
Proof.
  assert (H1 : @always_succeeds Status _ MemFile _)
    by (split; intros; reflexivity).
  assert (H2 : len (repeat x61 (Z.to_nat 40000)) = 40000)
    by (rewrite repeat_length; lia).
  split; [exact H1|]. split; [exact H2|].
  destruct (AddRecord_40000 mem0 (repeat x61 (Z.to_nat 40000)) H1 H2)
    as (s & w' & hdr1 & hdr2 & s1 & s2 & s3 & s4 & s5 & E & Hrest).
  exists s, w', s3. split; [exact E|]. apply Hrest.
Defined.

(** C10 as stated: the cursor is at 32761 and the append of the header
    fails. The only record is the [First] record without payload; no record
    follows it, and the byte of the payload is in no record. *)
Lemma AddRecord_header_only_first_counterexample :
  exists s w' e,
    block_offset_ (Writer_resume (failing_file [false]) 32761) =
      kBlockSize - kHeaderSize /\
    AddRecord_history (Writer_resume (failing_file [false]) 32761) [x61] =
      Ret (s, w', e :: []) /\
    e_type e = kFirstType /\ e_payload e = [] /\
    ok s = false /\
    concat (map (@e_payload Status) []) <> [x61].
Proof.
  vm_compute. eexists _, _, _.
  repeat split; try reflexivity. discriminate.
Qed.

(** For C10 as amended, the same cursor on a file that does not fail. *)
Lemma AddRecord_header_only_first_witness :
  block_offset_ (Writer_resume empty_file 32761) = kBlockSize - kHeaderSize /\
  [x61] <> [] /\
  exists s w' e es',
    AddRecord_history (Writer_resume empty_file 32761) [x61] =
      Ret (s, w', e :: es') /\
    e_type e = kFirstType /\ e_payload e = [] /\
    Forall (fun e' => e_offset e' = 0) es' /\
    (ok s = true -> es' <> [] /\ concat (map (@e_payload _) es') = [x61]).
Proof.
  assert (H1 : block_offset_ (Writer_resume empty_file 32761)
               = kBlockSize - kHeaderSize) by reflexivity.
  assert (H2 : [x61] <> []) by discriminate.
  split; [exact H1|]. split; [exact H2|].
  destruct (AddRecord_header_only_first
              (Writer_resume empty_file 32761) [x61] H1 H2)
    as (s & w' & e & es' & E & Ht & Hp & _ & _ & Hz & Hall).
  exists s, w', e, es'. repeat split; auto; apply Hall; assumption.
Defined.

Example header_only_first_then_last :
  match AddRecord_history (Writer_resume empty_file 32761) [x61] with
  | Ret (s, w', es) =>
      (s, block_offset_ w',
       map (fun e => (e_offset e, e_type e, e_payload e)) es) =
      (OK, 8, [(32761, kFirstType, []); (0, kLastType, [x61])])
  | _ => False
  end.
Proof. vm_compute. reflexivity. Qed.

End Runs.

(** * More properties of the writer *)

(** ** On every file *)

Section MoreFraming.

Context {Status : Type} {SO : StatusOps Status}.
Context {File : Type} {WF : WritableFile Status File}.
Context {CRC : Crc32c}.

Local Abbreviation Writer := (@Writer File).
Local Abbreviation Emission := (@Emission Status).
Local Abbreviation len l := (Z.of_nat (List.length l)).

(** A slice that fits in the room of the block is one [Full] record. *)
Lemma AddRecord_fits (w : Writer) p :
  cursor_ok w -> len p <= avail_at w ->
  exists s w',
    AddRecord_history w p =
      Ret (s, w', [ {| e_offset := start_offset w; e_type := kFullType;
                       e_payload := p; e_status := s |} ]) /\
    block_offset_ w' = start_offset w + kHeaderSize + len p.
Proof.
  intros Hc Ha.
  destruct (fragment_type_whole w p true Ha) as (Hn & Ht).
  destruct (AddRecord_history_returns w p Hc) as (s & w' & es & H).
  pose proof (AddRecord_history_run H) as Hrun.
  destruct (LoopRun_inv Hrun) as (s1 & w1 & ptr1 & e & Hb & Hcases).
  apply AddRecord_body_inv in Hb.
  destruct Hb as (_ & _ & He & Hptr & Ho & _).
  rewrite Hn, Nat2Z.id in He, Hptr. rewrite Hn in Ho.
  rewrite firstn_all in He. rewrite skipn_all in Hptr.
  rewrite Ht in He. subst ptr1.
  destruct Hcases as [(_ & -> & -> & ->) | (Hgo & _)];
    [|rewrite andb_false_r in Hgo; discriminate].
  exists s1, w1. rewrite <- He. auto.
Qed.

(** X1. A writer that resumes a file of [dest_length] bytes stands at
    [dest_length mod kBlockSize] in its block; a slice that fits, with its
    header, in the rest of this block is written as one [Full] record that
    starts there, and the cursor ends behind it, whatever the file
    answers. *)
Theorem resumed_record_fits (dest : File) (dest_length : Z) p :
  0 <= dest_length ->
  kHeaderSize + len p <= kBlockSize - dest_length mod kBlockSize ->
  exists s w' e,
    AddRecord_history (Writer_resume dest dest_length) p = Ret (s, w', [e]) /\
    e_offset e = dest_length mod kBlockSize /\
    e_type e = kFullType /\ e_payload e = p /\ e_status e = s /\
    block_offset_ w' = dest_length mod kBlockSize + kHeaderSize + len p.
Proof.
  intros _ Hfit. set (w := Writer_resume dest dest_length).
  assert (Hm : 0 <= dest_length mod kBlockSize < kBlockSize)
    by (apply Z.mod_pos_bound; reflexivity).
  assert (Hc : cursor_ok w) by (unfold cursor_ok; cbn [w Writer_resume block_offset_]; lia).
  assert (Hs : start_offset w = dest_length mod kBlockSize).
  { unfold start_offset. cbn [w Writer_resume block_offset_].
    destruct (Z.ltb_spec (kBlockSize - dest_length mod kBlockSize) kHeaderSize);
      [|reflexivity].
    pose proof (Zle_0_nat (List.length p)). lia. }
  destruct (AddRecord_fits w p Hc) as (s & w' & H & Ho).
  { unfold avail_at. rewrite Hs. lia. }
  rewrite Hs in H, Ho.
  eexists s, w', _. split; [exact H|]. cbn [e_offset e_type e_payload e_status].
  auto.
Qed.

(** After the first fragment: [Middle] records and one [Last] record, or
    [Middle] records only when the loop stops on a failure. *)
Lemma LoopRun_types_rest {w : Writer} {ptr begin s w' es} :
  LoopRun w ptr begin s w' es ->
  begin = false ->
  exists k,
    map (@e_type _) es = repeat kMiddleType k ++ [kLastType] \/
    (ok s = false /\ map (@e_type _) es = repeat kMiddleType (S k)).
Proof.
  induction 1 as [w ptr begin s w' ptr' e Hb Hc
                 |w ptr begin s1 w1 ptr1 e s w' es Hb Hc Hrun IH];
    intros ->.
  - exists 0%nat.
    apply AddRecord_body_inv in Hb. destruct Hb as (_ & _ & -> & -> & _).
    simpl_hist. rewrite length_skipn in Hc.
    destruct (Z.le_gt_cases (len ptr) (avail_at w)) as [Hle|Hgt].
    + destruct (fragment_type_whole w ptr false Hle) as (_ & ->). auto.
    + destruct (fragment_type_part w ptr false Hgt) as (Hn & ->).
      right. split; [|reflexivity].
      apply andb_false_iff in Hc. destruct Hc as [Hc|Hc]; [exact Hc|].
      apply Z.ltb_ge in Hc. pose proof (start_offset_room w). lia.
  - destruct (IH eq_refl) as (k & Hk).
    apply andb_prop in Hc. destruct Hc as [_ Hc]. apply Z.ltb_lt in Hc.
    destruct (AddRecord_body_continues Hb Hc) as (_ & Hlt & _).
    apply AddRecord_body_inv in Hb. destruct Hb as (_ & _ & -> & _).
    destruct (fragment_type_part w ptr false Hlt) as (_ & Ht).
    exists (S k). simpl_hist. rewrite Ht.
    destruct Hk as [-> | (Hs & ->)]; [left|right]; auto.
Qed.

(** X2. The types of the records of one call of [AddRecord], on any file:
    one [Full]; or [First], any number of [Middle], [Last]; or, only when
    the call fails, [First] and any number of [Middle] without a [Last]. *)
Theorem AddRecord_record_types (w : Writer) p :
  0 <= block_offset_ w <= kBlockSize ->
  exists s w' es,
    AddRecord_history w p = Ret (s, w', es) /\
    record_types s (map (@e_type _) es).
Proof.
  intros Hc.
  destruct (AddRecord_history_returns w p Hc) as (s & w' & es & H).
  exists s, w', es. split; [exact H|].
  pose proof (AddRecord_history_run H) as Hrun.
  destruct (LoopRun_inv Hrun) as (s1 & w1 & ptr1 & e & Hb & Hcases).
  unfold record_types.
  destruct Hcases as [(Hstop & -> & -> & ->) | (Hgo & es1 & -> & Hrun1)].
  - apply AddRecord_body_inv in Hb. destruct Hb as (_ & _ & -> & -> & _).
    simpl_hist. rewrite length_skipn in Hstop.
    destruct (Z.le_gt_cases (len p) (avail_at w)) as [Hle|Hgt].
    + destruct (fragment_type_whole w p true Hle) as (_ & ->). auto.
    + destruct (fragment_type_part w p true Hgt) as (Hn & ->).
      right. right. split; [|exists 0%nat; reflexivity].
      apply andb_false_iff in Hstop. destruct Hstop as [Hs|Hs]; [exact Hs|].
      apply Z.ltb_ge in Hs. pose proof (start_offset_room w). lia.
  - apply andb_prop in Hgo. destruct Hgo as [_ Hgo]. apply Z.ltb_lt in Hgo.
    destruct (AddRecord_body_continues Hb Hgo) as (_ & Hlt & _).
    apply AddRecord_body_inv in Hb. destruct Hb as (_ & _ & -> & _).
    destruct (fragment_type_part w p true Hlt) as (_ & Ht).
    simpl_hist. rewrite Ht.
    destruct (LoopRun_types_rest Hrun1 eq_refl) as (k & [Hk | (Hs & Hk)]);
      rewrite Hk.
    + right. left. exists k. reflexivity.
    + right. right. split; [exact Hs|]. exists (S k). reflexivity.
Qed.

Lemma fragment_type_not_zero (w : Writer) ptr begin :
  fragment_type w ptr begin <> kZeroType.
Proof.
  unfold fragment_type.
  destruct begin, (len ptr =? fragment_length w ptr); discriminate.
Qed.

Lemma LoopRun_no_zero {w : Writer} {ptr begin s w' es} :
  LoopRun w ptr begin s w' es ->
  es <> [] /\ Forall (fun e => e_type e <> kZeroType) es.
Proof.
  induction 1 as [w ptr begin s w' ptr' e Hb Hc
                 |w ptr begin s1 w1 ptr1 e s w' es Hb Hc Hrun IH];
    (split; [discriminate|]);
    apply AddRecord_body_inv in Hb; destruct Hb as (_ & _ & -> & _).
  - constructor; [apply fragment_type_not_zero|constructor].
  - constructor; [apply fragment_type_not_zero|apply IH].
Qed.

(** X3. In every sequence of calls of [AddRecord], each call returns a
    status and emits at least one record, and no record has the reserved
    type [kZeroType]. *)
Theorem never_zero_type (slices : list (list byte)) : forall w : Writer,
  0 <= block_offset_ w <= kBlockSize ->
  exists ss w' es,
    AddRecords w slices = Ret (ss, w', es) /\
    List.length ss = List.length slices /\
    (List.length slices <= List.length es)%nat /\
    Forall (fun e => e_type e <> kZeroType) es.
Proof.
  induction slices as [|slice slices IH]; intros w Hc.
  - exists [], w, []. cbn. auto.
  - cbn [AddRecords].
    destruct (AddRecord_history_returns w slice Hc) as (s & w1 & es1 & H1).
    rewrite H1. cbn [bind].
    pose proof (AddRecord_history_run H1) as Hrun.
    destruct (LoopRun_well_placed Hc Hrun) as (_ & Hc1).
    destruct (LoopRun_no_zero Hrun) as (Hne & Hz1).
    destruct (IH w1 Hc1) as (ss & w2 & es2 & H2 & Hlen & Hcount & Hz2).
    rewrite H2. cbn [bind].
    exists (s :: ss), w2, (es1 ++ es2). split; [reflexivity|].
    split; [cbn [List.length]; lia|]. split.
    + rewrite length_app. cbn [List.length].
      destruct es1; [congruence|cbn [List.length]; lia].
    + apply Forall_app. auto.
Qed.

(** All the records of a run but the last one fill their block, and the
    cursor ends behind the last one. *)
Lemma LoopRun_fills {w : Writer} {ptr begin s w' es} :
  LoopRun w ptr begin s w' es ->
  exists es0 e,
    es = es0 ++ [e] /\ Forall fills_block es0 /\
    block_offset_ w' = e_offset e + kHeaderSize + len (e_payload e).
Proof.
  induction 1 as [w ptr begin s w' ptr' e Hb Hc
                 |w ptr begin s1 w1 ptr1 e s w' es Hb Hc Hrun IH].
  - exists [], e. apply AddRecord_body_inv in Hb.
    destruct Hb as (_ & _ & -> & _ & Ho & _). simpl_hist.
    pose proof (fragment_length_bounds w ptr) as Hf.
    rewrite length_firstn. repeat split; auto. lia.
  - destruct IH as (es0 & e' & -> & Hfill & Ho). exists (e :: es0), e'.
    split; [reflexivity|]. split; [|exact Ho].
    constructor; [|exact Hfill].
    apply andb_prop in Hc. destruct Hc as [_ Hc]. apply Z.ltb_lt in Hc.
    destruct (AddRecord_body_continues Hb Hc) as (_ & _ & Hk & _).
    apply AddRecord_body_inv in Hb.
    destruct Hb as (_ & _ & -> & _ & Ho1 & _).
    unfold fills_block. simpl_hist.
    pose proof (fragment_length_bounds w ptr) as Hf.
    rewrite length_firstn. lia.
Qed.

Lemma LoopRun_later {w : Writer} {ptr begin s w' es} :
  LoopRun w ptr begin s w' es ->
  block_offset_ w = kBlockSize -> 0 < len ptr ->
  Forall later_record es.
Proof.
  induction 1 as [w ptr begin s w' ptr' e Hb Hc
                 |w ptr begin s1 w1 ptr1 e s w' es Hb Hc Hrun IH];
    intros Hk Hlen.
  - constructor; [|constructor].
    apply AddRecord_body_inv in Hb. destruct Hb as (_ & _ & -> & _).
    assert (Hs : start_offset w = 0)
      by (unfold start_offset; rewrite Hk; reflexivity).
    assert (Ha : avail_at w = kBlockSize - kHeaderSize)
      by (unfold avail_at; rewrite Hs; lia).
    unfold later_record. simpl_hist. rewrite length_firstn.
    split; [exact Hs|].
    destruct (Z.le_gt_cases (len ptr) (avail_at w)) as [Hle|Hgt].
    + destruct (fragment_type_whole w ptr begin Hle) as (Hn & Ht).
      rewrite Hn, Ht. split; [lia|]. destruct begin; discriminate.
    + destruct (fragment_type_part w ptr begin Hgt) as (Hn & Ht).
      rewrite Hn, Ha in *. unfold kBlockSize, kHeaderSize in *. lia.
  - apply andb_prop in Hc. destruct Hc as [_ Hc]. apply Z.ltb_lt in Hc.
    destruct (AddRecord_body_continues Hb Hc) as (Hn & Hlt & Hk1 & _).
    constructor; [|apply IH; assumption].
    apply AddRecord_body_inv in Hb. destruct Hb as (_ & _ & -> & _).
    assert (Hs : start_offset w = 0)
      by (unfold start_offset; rewrite Hk; reflexivity).
    assert (Ha : avail_at w = kBlockSize - kHeaderSize)
      by (unfold avail_at; rewrite Hs; lia).
    unfold later_record. simpl_hist. rewrite length_firstn.
    rewrite Hn, Ha in *. unfold kBlockSize, kHeaderSize in *. lia.
Qed.

(** X4. The places of the records of one call of [AddRecord], on any file:
    the first record starts where the cursor stands after the switch of
    block; every record but the last ends exactly at the end of its block;
    every record after the first starts a block and is not empty; a
    [Middle] record carries [kBlockSize - kHeaderSize] bytes; and the cursor
    ends behind the last record. *)
Theorem fragment_geometry (w : Writer) p :
  0 <= block_offset_ w <= kBlockSize ->
  exists s w' e1 rest es0 e,
    AddRecord_history w p = Ret (s, w', e1 :: rest) /\
    e1 :: rest = es0 ++ [e] /\
    e_offset e1 = start_offset w /\
    Forall fills_block es0 /\
    Forall (fun e' => e_offset e' = 0 /\ 0 < len (e_payload e')) rest /\
    Forall (fun e' => e_type e' = kMiddleType ->
                      len (e_payload e') = kBlockSize - kHeaderSize)
           (e1 :: rest) /\
    block_offset_ w' = e_offset e + kHeaderSize + len (e_payload e).
Proof.
  intros Hc.
  destruct (AddRecord_history_returns w p Hc) as (s & w' & es & H).
  pose proof (AddRecord_history_run H) as Hrun.
  destruct (LoopRun_fills Hrun) as (es0 & e & Hes & Hfill & Ho).
  destruct (LoopRun_inv Hrun) as (s1 & w1 & ptr1 & e1 & Hb & Hcases).
  assert (Hlater : exists rest, es = e1 :: rest /\ Forall later_record rest).
  { destruct Hcases as [(_ & _ & _ & ->) | (Hgo & es1 & -> & Hrun1)].
    - exists []. auto.
    - exists es1. split; [reflexivity|].
      apply andb_prop in Hgo. destruct Hgo as [_ Hgo]. apply Z.ltb_lt in Hgo.
      destruct (AddRecord_body_continues Hb Hgo) as (_ & _ & Hk & _).
      apply (LoopRun_later Hrun1 Hk Hgo). }
  destruct Hlater as (rest & -> & Hlater).
  apply AddRecord_body_inv in Hb. destruct Hb as (_ & _ & He1 & _).
  exists s, w', e1, rest, es0, e.
  split; [exact H|]. split; [exact Hes|].
  split; [rewrite He1; reflexivity|]. split; [exact Hfill|].
  split; [|split; [|exact Ho]].
  - eapply Forall_impl; [|exact Hlater]. intros x (Hx1 & Hx2 & _). auto.
  - constructor.
    + rewrite He1. cbn [e_type]. unfold fragment_type.
      destruct (len p =? fragment_length w p); discriminate.
    + eapply Forall_impl; [|exact Hlater]. intros x (_ & _ & Hx). exact Hx.
Qed.

(** The number of records of a run that starts at the end of a block and
    succeeds: as many as blocks of payload are needed. *)
Lemma LoopRun_count {w : Writer} {ptr begin s w' es} :
  LoopRun w ptr begin s w' es ->
  block_offset_ w = kBlockSize -> 0 < len ptr -> ok s = true ->
  (len es - 1) * (kBlockSize - kHeaderSize) < len ptr
  <= len es * (kBlockSize - kHeaderSize).
Proof.
  induction 1 as [w ptr begin s w' ptr' e Hb Hc
                 |w ptr begin s1 w1 ptr1 e s w' es Hb Hc Hrun IH];
    intros Hk Hlen Hok.
  - rewrite Hok in Hc. cbn [andb] in Hc. apply Z.ltb_ge in Hc.
    apply AddRecord_body_inv in Hb. destruct Hb as (_ & _ & _ & -> & _).
    rewrite length_skipn in Hc.
    pose proof (fragment_length_bounds w ptr) as Hf.
    assert (Ha : avail_at w = kBlockSize - kHeaderSize)
      by (unfold avail_at, start_offset; rewrite Hk; reflexivity).
    cbn [List.length]. unfold kBlockSize, kHeaderSize in *. lia.
  - apply andb_prop in Hc. destruct Hc as [_ Hc]. apply Z.ltb_lt in Hc.
    destruct (AddRecord_body_continues Hb Hc) as (_ & _ & Hk1 & Hl1).
    specialize (IH Hk1 Hc Hok).
    assert (Ha : avail_at w = kBlockSize - kHeaderSize)
      by (unfold avail_at, start_offset; rewrite Hk; reflexivity).
    cbn [List.length]. rewrite Nat2Z.inj_succ.
    unfold kBlockSize, kHeaderSize in *. lia.
Qed.

(** X9. How many records a slice takes. A call of [AddRecord] that succeeds
    on a slice longer than the room [avail] of its block emits one record
    for that room and then as many records as the rest of the slice needs
    blocks of [kBlockSize - kHeaderSize] bytes of payload. *)
Theorem AddRecord_count (w : Writer) p s w' es :
  0 <= block_offset_ w ->
  avail_at w < len p ->
  AddRecord_history w p = Ret (s, w', es) ->
  ok s = true ->
  (len es - 2) * (kBlockSize - kHeaderSize) < len p - avail_at w
  <= (len es - 1) * (kBlockSize - kHeaderSize).
Proof.
  intros _ Hlong H Hok. apply AddRecord_history_run in H.
  destruct (LoopRun_inv H) as (s1 & w1 & ptr1 & e & Hb & Hcases).
  destruct Hcases as [(Hstop & -> & _ & _) | (Hgo & es1 & -> & Hrun1)].
  - exfalso. rewrite Hok in Hstop. cbn [andb] in Hstop.
    apply Z.ltb_ge in Hstop.
    apply AddRecord_body_inv in Hb. destruct Hb as (_ & _ & _ & -> & _).
    destruct (fragment_type_part w p true Hlong) as (Hn & _).
    rewrite length_skipn in Hstop. pose proof (start_offset_room w). lia.
  - apply andb_prop in Hgo. destruct Hgo as [_ Hgo]. apply Z.ltb_lt in Hgo.
    destruct (AddRecord_body_continues Hb Hgo) as (_ & _ & Hk & Hl).
    pose proof (LoopRun_count Hrun1 Hk Hgo Hok) as Hcount.
    cbn [List.length]. rewrite Nat2Z.inj_succ.
    unfold kBlockSize, kHeaderSize in *. lia.
Qed.

(** X11. [AddRecord] leaves the table of type checksums as it is: after any
    sequence of calls that returns, the table of a constructed writer still
    holds, for each record type, the checksum of the byte of its code. *)
Theorem type_crc_unchanged (slices : list (list byte)) :
  forall (w : Writer) ss w' es,
  AddRecords w slices = Ret (ss, w', es) ->
  type_crc_ w' = type_crc_ w /\
  (type_crc_ w = InitTypeCrc ->
   forall t, type_crc_at w' t = Value [char_of_Z (RecordType_code t)]).
Proof.
  assert (Hat : forall (w : Writer) t, type_crc_ w = InitTypeCrc ->
                  type_crc_at w t = Value [char_of_Z (RecordType_code t)]).
  { intros w t. unfold type_crc_at. intros ->. destruct t; reflexivity. }
  assert (Hsame : forall slices (w : Writer) ss w' es,
             AddRecords w slices = Ret (ss, w', es) ->
             type_crc_ w' = type_crc_ w).
  { clear slices. induction slices as [|slice slices IH];
      intros w ss w' es H.
    - cbn [AddRecords] in H. ret_inj H. reflexivity.
    - cbn [AddRecords] in H.
      destruct (AddRecord_history w slice) as [[[s w1] es1]| |] eqn:H1;
        try discriminate.
      cbn [bind] in H.
      destruct (AddRecords w1 slices) as [[[ss2 w2] es2]| |] eqn:H2;
        try discriminate.
      cbn [bind] in H. ret_inj H.
      destruct (LoopRun_cursor (AddRecord_history_run H1))
        as (_ & _ & _ & _ & Hcrc).
      rewrite (IH _ _ _ _ H2). exact Hcrc. }
  intros w ss w' es H. pose proof (Hsame _ _ _ _ _ H) as E.
  split; [exact E|]. intros Hinit t. apply Hat. congruence.
Qed.

End MoreFraming.

(** ** On a file that records its calls *)

Section MoreCalls.

Context {Status : Type} {SO : StatusOps Status}.
Context {File : Type} {WF : WritableFile Status File}.
Context {CRC : Crc32c}.

Local Abbreviation RFile := (Recorded Status File).
Local Abbreviation Writer := (@Writer RFile).
Local Abbreviation Emission := (@Emission Status).
Local Abbreviation len l := (Z.of_nat (List.length l)).
Local Abbreviation call_ok := (fun c : SinkCall Status => ok (call_status c) = true).

Lemma emitted_header_table (w1 w : Writer) t data :
  type_crc_ w1 = type_crc_ w ->
  emitted_header w1 t data = emitted_header w t data.
Proof.
  intros H. unfold emitted_header, type_crc_at. rewrite H. reflexivity.
Qed.

Lemma RunCalls_table (w1 w : Writer) es cs :
  type_crc_ w1 = type_crc_ w -> RunCalls w1 es cs -> RunCalls w es cs.
Proof.
  intros H. induction 1 as [|e es c cs Hc _ IH]; constructor; auto.
  rewrite <- (emitted_header_table w1 w _ _ H). exact Hc.
Qed.

(** The calls of a run of the loop: the trailer of its first iteration, if
    any, and then the calls of its emissions. *)
Lemma LoopRun_calls {w : Writer} {ptr begin s w' es} :
  LoopRun w ptr begin s w' es ->
  exists tr cs,
    calls (dest_ w') = calls (dest_ w) ++ tr ++ cs /\
    TrailerCalls w tr /\ RunCalls w es cs.
Proof.
  induction 1 as [w ptr begin s w' ptr' e Hb Hc
                 |w ptr begin s1 w1 ptr1 e s w' es Hb Hc Hrun IH].
  - destruct (AddRecord_body_calls Hb) as (tr & c & Hcs & Htr & Hec).
    apply AddRecord_body_inv in Hb. destruct Hb as (_ & _ & He & _).
    exists tr, (c ++ []). split; [rewrite app_nil_r; exact Hcs|].
    split; [exact Htr|]. constructor; [|constructor].
    subst e. exact Hec.
  - destruct (AddRecord_body_calls Hb) as (tr & c & Hcs & Htr & Hec).
    destruct IH as (tr1 & cs1 & Hcs1 & Htr1 & Hrc).
    apply andb_prop in Hc. destruct Hc as [_ Hc]. apply Z.ltb_lt in Hc.
    destruct (AddRecord_body_continues Hb Hc) as (_ & _ & Hk & _).
    apply AddRecord_body_inv in Hb.
    destruct Hb as (_ & _ & He & _ & _ & Hcrc).
    assert (tr1 = []) as ->.
    { unfold TrailerCalls in Htr1. rewrite Hk in Htr1. exact Htr1. }
    exists tr, (c ++ cs1). split.
    + rewrite Hcs1, Hcs. cbn [app]. rewrite <- !app_assoc. reflexivity.
    + split; [exact Htr|]. constructor.
      * subst e. exact Hec.
      * apply (RunCalls_table w1 w _ _ Hcrc Hrc).
Qed.

(** X5. The calls that one [AddRecord] makes on the file, whatever the file
    answers: first the append of the trailer, when between 1 and 6 bytes
    are left in the block, and then, for each record of the history in
    order, the calls of its emission (header, payload, flush, up to the
    first that fails). No trailer is written between the fragments of a
    slice. *)
Theorem AddRecord_calls (w : Writer) p :
  0 <= block_offset_ w <= kBlockSize ->
  exists s w' es tr cs,
    AddRecord_history w p = Ret (s, w', es) /\
    calls (dest_ w') = calls (dest_ w) ++ tr ++ cs /\
    TrailerCalls w tr /\
    RunCalls w es cs.
Proof.
  intros Hc.
  destruct (AddRecord_history_returns w p Hc) as (s & w' & es & H).
  destruct (LoopRun_calls (AddRecord_history_run H)) as (tr & cs & Hcs).
  exists s, w', es, tr, cs. split; [exact H|exact Hcs].
Qed.

Lemma EmitCalls_ok_iff hdr data c s :
  EmitCalls hdr data c s -> (ok s = true <-> Forall call_ok c).
Proof.
  destruct 1 as [s1 H1|s1 s2 H1 H2|s1 s2 s3 H1 H2]; split; intros H.
  - congruence.
  - inversion H; subst. cbn in *. congruence.
  - congruence.
  - inversion H as [|? ? _ H']; subst. inversion H'; subst.
    cbn in *. congruence.
  - repeat constructor; assumption.
  - inversion H as [|? ? _ H']; subst. inversion H' as [|? ? _ H'']; subst.
    inversion H''; subst. assumption.
Qed.

Lemma RunCalls_ok_iff (w : Writer) es cs :
  RunCalls w es cs ->
  (Forall (fun e => ok (e_status e) = true) es <-> Forall call_ok cs).
Proof.
  induction 1 as [|e es c cs Hc _ IH].
  - split; constructor.
  - pose proof (EmitCalls_ok_iff _ _ _ _ Hc) as He. split; intros H.
    + inversion H; subst. apply Forall_app. split; [apply He|apply IH]; auto.
    + apply Forall_app in H. destruct H as [H1 H2].
      constructor; [apply He|apply IH]; auto.
Qed.

(** X6. [AddRecord] returns a status that is ok exactly when every call of
    its emissions (header appends, payload appends, flushes) succeeded. The
    append of the trailer is not among them: its status is dropped, and a
    trailer that could not be written does not make the call fail. *)
Theorem AddRecord_ok_iff (w : Writer) p :
  0 <= block_offset_ w <= kBlockSize ->
  exists s w' tr cs,
    AddRecord w p = Ret (s, w') /\
    calls (dest_ w') = calls (dest_ w) ++ tr ++ cs /\
    TrailerCalls w tr /\
    (ok s = true <-> Forall call_ok cs).
Proof.
  intros Hc.
  destruct (AddRecord_history_returns w p Hc) as (s & w' & es & H).
  pose proof (AddRecord_history_run H) as Hrun.
  destruct (LoopRun_calls Hrun) as (tr & cs & Hcs & Htr & Hrc).
  destruct (LoopRun_status Hrun) as (es0 & e & -> & Hok & Hs).
  exists s, w', tr, cs. split; [unfold AddRecord; rewrite H; reflexivity|].
  split; [exact Hcs|]. split; [exact Htr|].
  rewrite <- (RunCalls_ok_iff _ _ _ Hrc), Forall_app. split.
  - intros Hs'. split; [exact Hok|].
    constructor; [congruence|constructor].
  - intros [_ He]. inversion He; subst. assumption.
Qed.

Lemma appended_app (cs1 cs2 : list (SinkCall Status)) :
  appended (cs1 ++ cs2) = appended cs1 ++ appended cs2.
Proof.
  induction cs1 as [|[data s|s] cs1 IH]; cbn [app appended];
    [reflexivity| |exact IH].
  rewrite IH, app_assoc. reflexivity.
Qed.

Lemma TrailerCalls_appended (w : Writer) tr :
  TrailerCalls w tr -> appended tr = trailer_bytes w.
Proof.
  unfold TrailerCalls, trailer_bytes.
  destruct ((kBlockSize - block_offset_ w <? kHeaderSize)
            && (0 <? kBlockSize - block_offset_ w)).
  - intros (s0 & ->). cbn [appended]. apply app_nil_r.
  - intros ->. reflexivity.
Qed.

Lemma RunCalls_appended (w : Writer) es cs :
  type_crc_ w = InitTypeCrc ->
  RunCalls w es cs ->
  Forall (fun e => ok (e_status e) = true) es ->
  appended cs = flat_map record_image es.
Proof.
  intros Hcrc. induction 1 as [|e es c cs Hc _ IH]; intros Hok;
    [reflexivity|].
  inversion Hok as [|? ? He Hes]; subst.
  destruct (EmitCalls_succeeded Hc He) as (s1 & s2 & ->).
  rewrite appended_app, (IH Hes). cbn [appended flat_map].
  unfold record_image, emitted_header.
  rewrite (InitTypeCrc_at w _ Hcrc), app_nil_r. reflexivity.
Qed.

Lemma LoopRun_succeeds {w : Writer} {ptr begin s w' es} :
  always_succeeds (File := File) ->
  LoopRun w ptr begin s w' es ->
  Forall (fun e => ok (e_status e) = true) es /\ ok s = true.
Proof.
  intros Hok.
  induction 1 as [w ptr begin s w' ptr' e Hb Hc
                 |w ptr begin s1 w1 ptr1 e s w' es Hb Hc Hrun IH].
  - pose proof (AddRecord_body_succeeds Hok Hb) as Hs.
    apply AddRecord_body_inv in Hb. destruct Hb as (_ & _ & -> & _).
    split; [|exact Hs]. constructor; [exact Hs|constructor].
  - pose proof (AddRecord_body_succeeds Hok Hb) as Hs.
    apply AddRecord_body_inv in Hb. destruct Hb as (_ & _ & -> & _).
    destruct IH as [IH1 IH2]. split; [|exact IH2].
    constructor; [exact Hs|exact IH1].
Qed.

(** X7. On a file that never fails, the bytes that one [AddRecord] of a
    constructed writer appends to the file are the zeroes of the trailer,
    if the block had between 1 and 6 bytes left, and then the records of
    the history, each as its header followed by its payload; the call
    succeeds, and the payloads of the records are the slice. *)
Theorem AddRecord_image (w : Writer) p :
  always_succeeds (File := File) ->
  0 <= block_offset_ w <= kBlockSize ->
  type_crc_ w = InitTypeCrc ->
  exists s w' es cs,
    AddRecord_history w p = Ret (s, w', es) /\
    ok s = true /\
    calls (dest_ w') = calls (dest_ w) ++ cs /\
    appended cs = trailer_bytes w ++ flat_map record_image es /\
    concat (map (@e_payload _) es) = p.
Proof.
  intros Hok Hc Hcrc.
  destruct (AddRecord_history_returns w p Hc) as (s & w' & es & H).
  pose proof (AddRecord_history_run H) as Hrun.
  destruct (LoopRun_calls Hrun) as (tr & cs & Hcs & Htr & Hrc).
  destruct (LoopRun_succeeds Hok Hrun) as (Hall & Hs).
  destruct (LoopRun_payload Hrun) as (rest & Hp & Hrest).
  exists s, w', es, (tr ++ cs).
  split; [exact H|]. split; [exact Hs|]. split; [exact Hcs|]. split.
  - rewrite appended_app, (TrailerCalls_appended _ _ Htr),
      (RunCalls_appended _ _ _ Hcrc Hrc Hall). reflexivity.
  - rewrite (Hrest Hs), app_nil_r in Hp. auto.
Qed.

Lemma RunCalls_length (w : Writer) es cs :
  RunCalls w es cs ->
  Forall (fun e => ok (e_status e) = true) es ->
  len (appended cs) =
  kHeaderSize * len es + len (concat (map (@e_payload _) es)).
Proof.
  induction 1 as [|e es c cs Hc _ IH]; intros Hok; [reflexivity|].
  inversion Hok as [|? ? He Hes]; subst.
  destruct (EmitCalls_succeeded Hc He) as (s1 & s2 & ->).
  rewrite appended_app. cbn [appended map concat List.length].
  rewrite app_nil_r, !length_app, !Nat2Z.inj_add, (IH Hes), Nat2Z.inj_succ.
  change (len (emitted_header w (e_type e) (e_payload e))) with 7.
  unfold kHeaderSize. lia.
Qed.

(** X10. What a slice costs in the file. On a file that never fails, one
    [AddRecord] appends the bytes of the slice, [kHeaderSize] bytes for each
    record it emits, and the zeroes of the trailer, if any, and nothing
    else. *)
Theorem AddRecord_overhead (w : Writer) p :
  always_succeeds (File := File) ->
  0 <= block_offset_ w <= kBlockSize ->
  exists s w' es cs,
    AddRecord_history w p = Ret (s, w', es) /\
    calls (dest_ w') = calls (dest_ w) ++ cs /\
    len (appended cs) =
      len (trailer_bytes w) + kHeaderSize * len es + len p /\
    len (trailer_bytes w) < kHeaderSize.
Proof.
  intros Hok Hc.
  destruct (AddRecord_history_returns w p Hc) as (s & w' & es & H).
  pose proof (AddRecord_history_run H) as Hrun.
  destruct (LoopRun_calls Hrun) as (tr & cs & Hcs & Htr & Hrc).
  destruct (LoopRun_succeeds Hok Hrun) as (Hall & Hs).
  destruct (LoopRun_payload Hrun) as (rest & Hp & Hrest).
  rewrite (Hrest Hs), app_nil_r in Hp.
  exists s, w', es, (tr ++ cs).
  split; [exact H|]. split; [exact Hcs|]. split.
  - rewrite appended_app, length_app, Nat2Z.inj_add,
      (TrailerCalls_appended _ _ Htr), (RunCalls_length _ _ _ Hrc Hall), <- Hp.
    lia.
  - unfold trailer_bytes.
    destruct (Z.ltb_spec (kBlockSize - block_offset_ w) kHeaderSize);
      destruct (Z.ltb_spec 0 (kBlockSize - block_offset_ w));
      cbn [andb List.length]; rewrite ?repeat_length;
      unfold kHeaderSize in *; lia.
Qed.

(** One iteration on a file that never fails: the bytes it appends take the
    cursor to its new place, through the end of the block when the
    iteration switches to a new block. *)
Lemma AddRecord_body_stream {w : Writer} {ptr begin s w' ptr' e} :
  always_succeeds (File := File) ->
  AddRecord_body w ptr begin = Ret (s, w', ptr', e) ->
  exists cs k,
    calls (dest_ w') = calls (dest_ w) ++ cs /\
    0 <= k /\
    block_offset_ w + len (appended cs) = k * kBlockSize + block_offset_ w'.
Proof.
  intros Hok Hb.
  pose proof (AddRecord_body_succeeds Hok Hb) as Hs.
  destruct (AddRecord_body_calls Hb) as (tr & c & Hcs & Htr & Hec).
  destruct (EmitCalls_succeeded Hec Hs) as (s1 & s2 & ->).
  apply AddRecord_body_inv in Hb.
  destruct Hb as (Hle & _ & He & _ & Ho & _).
  pose proof (fragment_length_bounds w ptr) as Hf.
  assert (Hpay : len (e_payload e) = fragment_length w ptr)
    by (rewrite He; cbn [e_payload]; rewrite length_firstn; lia).
  apply TrailerCalls_appended in Htr.
  exists (tr ++ [CAppend (emitted_header w (e_type e) (e_payload e)) s1;
                 CAppend (e_payload e) s2; CFlush s]).
  exists (if kBlockSize - block_offset_ w <? kHeaderSize then 1 else 0).
  split; [exact Hcs|].
  rewrite appended_app, Htr. cbn [appended].
  rewrite app_nil_r, !length_app, !Nat2Z.inj_add, Hpay.
  change (len (emitted_header w (e_type e) (e_payload e))) with 7.
  unfold trailer_bytes, start_offset in *.
  destruct (Z.ltb_spec (kBlockSize - block_offset_ w) kHeaderSize);
    destruct (Z.ltb_spec 0 (kBlockSize - block_offset_ w));
    cbn [andb List.length]; rewrite ?repeat_length;
    unfold kHeaderSize, kBlockSize in *; lia.
Qed.

Lemma LoopRun_stream {w : Writer} {ptr begin s w' es} :
  always_succeeds (File := File) ->
  LoopRun w ptr begin s w' es ->
  exists cs k,
    calls (dest_ w') = calls (dest_ w) ++ cs /\
    0 <= k /\
    block_offset_ w + len (appended cs) = k * kBlockSize + block_offset_ w'.
Proof.
  intros Hok.
  induction 1 as [w ptr begin s w' ptr' e Hb Hc
                 |w ptr begin s1 w1 ptr1 e s w' es Hb Hc Hrun IH].
  - apply (AddRecord_body_stream Hok Hb).
  - destruct (AddRecord_body_stream Hok Hb) as (cs1 & k1 & Hcs1 & Hk1 & H1).
    destruct IH as (cs2 & k2 & Hcs2 & Hk2 & H2).
    exists (cs1 ++ cs2), (k1 + k2). split; [|split; [lia|]].
    + rewrite Hcs2, Hcs1, app_assoc. reflexivity.
    + rewrite appended_app, length_app, Nat2Z.inj_add. lia.
Qed.

(** X8. On a file that never fails, the cursor follows the file: after any
    sequence of calls of [AddRecord], the cursor at the start plus the
    number of bytes appended is the cursor at the end plus a whole number of
    blocks, and every call succeeded. For a writer that resumed a file of
    [dest_length] bytes, the cursor is then congruent to the length of the
    file modulo [kBlockSize]. *)
Theorem cursor_follows_file (slices : list (list byte)) : forall w : Writer,
  always_succeeds (File := File) ->
  0 <= block_offset_ w <= kBlockSize ->
  exists ss w' es cs k,
    AddRecords w slices = Ret (ss, w', es) /\
    Forall (fun s => ok s = true) ss /\
    calls (dest_ w') = calls (dest_ w) ++ cs /\
    0 <= k /\
    block_offset_ w + len (appended cs) = k * kBlockSize + block_offset_ w' /\
    (block_offset_ w + len (appended cs)) mod kBlockSize =
      block_offset_ w' mod kBlockSize.
Proof.
  induction slices as [|slice slices IH]; intros w Hok Hc.
  - exists [], w, [], [], 0. cbn [AddRecords appended List.length].
    rewrite app_nil_r. repeat split; try constructor; try lia.
    f_equal. lia.
  - cbn [AddRecords].
    destruct (AddRecord_history_returns w slice Hc) as (s & w1 & es1 & H1).
    rewrite H1. cbn [bind].
    pose proof (AddRecord_history_run H1) as Hrun.
    destruct (LoopRun_well_placed Hc Hrun) as (_ & Hc1).
    destruct (LoopRun_succeeds Hok Hrun) as (_ & Hs).
    destruct (LoopRun_stream Hok Hrun) as (cs1 & k1 & Hcs1 & Hk1 & Hst1).
    destruct (IH w1 Hok Hc1)
      as (ss & w2 & es2 & cs2 & k2 & H2 & Hss & Hcs2 & Hk2 & Hst2 & _).
    rewrite H2. cbn [bind].
    exists (s :: ss), w2, (es1 ++ es2), (cs1 ++ cs2), (k1 + k2).
    split; [reflexivity|]. split; [constructor; assumption|].
    split; [rewrite Hcs2, Hcs1, app_assoc; reflexivity|].
    split; [lia|].
    assert (Hst : block_offset_ w + len (appended (cs1 ++ cs2)) =
                  (k1 + k2) * kBlockSize + block_offset_ w2)
      by (rewrite appended_app, length_app, Nat2Z.inj_add; lia).
    split; [exact Hst|].
    rewrite Hst, Z.add_comm, Z.mod_add by (unfold kBlockSize; lia).
    reflexivity.
Qed.

End MoreCalls.

(** ** Fragments and assertions, on the calls of the file *)

Section FragmentsOnFile.

Context {Status : Type} {SO : StatusOps Status}.
Context {File : Type} {WF : WritableFile Status File}.
Context {CRC : Crc32c}.

Local Abbreviation RWriter := (@Writer (Recorded Status File)).
Local Abbreviation Writer := (@Writer File).
Local Abbreviation Emission := (@Emission Status).
Local Abbreviation len l := (Z.of_nat (List.length l)).
Local Abbreviation call_ok :=
  (fun c : SinkCall Status => ok (call_status c) = true).

(** The bytes of emissions that all succeeded: header and payload of each
    record. *)
Lemma RunCalls_bytes (w : RWriter) es cs :
  RunCalls w es cs ->
  Forall (fun e => ok (e_status e) = true) es ->
  appended cs =
  flat_map (fun e => emitted_header w (e_type e) (e_payload e) ++ e_payload e)
           es.
Proof.
  induction 1 as [|e es c cs Hc _ IH]; intros Hok; [reflexivity|].
  inversion Hok as [|? ? He Hes]; subst.
  destruct (EmitCalls_succeeded Hc He) as (s1 & s2 & ->).
  rewrite appended_app, (IH Hes). cbn [appended flat_map].
  rewrite app_nil_r, <- app_assoc. reflexivity.
Qed.

(** C3. [AddRecord] of a payload longer than the room [avail] of the block
    it starts in returns, and the file receives the trailer, if any, and
    then the calls of the emitted records, in order; the cursor ends behind
    the last record. When the call succeeds, the records are one [First],
    then [Middle] records, then one [Last]; their payloads, put end to end,
    are the payload of the call; every call of every emission succeeded;
    and the bytes handed to the file after the trailer are, record by
    record, the header and then the payload. *)
Theorem AddRecord_fragments (w : RWriter) p :
  0 <= block_offset_ w <= kBlockSize ->
  avail_at w < len p ->
  exists s w' es tr cs,
    AddRecord_history w p = Ret (s, w', es) /\
    AddRecord w p = Ret (s, w') /\
    calls (dest_ w') = calls (dest_ w) ++ tr ++ cs /\
    TrailerCalls w tr /\
    RunCalls w es cs /\
    (exists es0 e,
       es = es0 ++ [e] /\
       Forall fills_block es0 /\
       block_offset_ w' = e_offset e + kHeaderSize + len (e_payload e)) /\
    (ok s = true ->
     (exists k,
        map (@e_type _) es =
        kFirstType :: repeat kMiddleType k ++ [kLastType]) /\
     concat (map (@e_payload _) es) = p /\
     Forall call_ok cs /\
     appended cs =
       flat_map (fun e => emitted_header w (e_type e) (e_payload e)
                          ++ e_payload e) es).
Proof.
  intros Hc Hlong.
  destruct (AddRecord_history_returns w p Hc) as (s & w' & es & H).
  pose proof (AddRecord_history_run H) as Hrun.
  destruct (LoopRun_calls Hrun) as (tr & cs & Hcs & Htr & Hrc).
  destruct (LoopRun_fills Hrun) as (es0 & e & Hes & Hfill & Ho).
  exists s, w', es, tr, cs.
  split; [exact H|]. split; [unfold AddRecord; rewrite H; reflexivity|].
  split; [exact Hcs|]. split; [exact Htr|]. split; [exact Hrc|].
  split; [exists es0, e; auto|].
  intros Hok.
  destruct (AddRecord_history_fragments w p s w' es (proj1 Hc) Hlong H Hok)
    as (Hty & Hpay).
  assert (Hall : Forall (fun e0 => ok (e_status e0) = true) es).
  { destruct (LoopRun_status Hrun) as (es1 & e1 & -> & Hok1 & Hs1).
    apply Forall_app. split; [exact Hok1|].
    constructor; [congruence|constructor]. }
  split; [exact Hty|]. split; [exact Hpay|]. split.
  - apply (RunCalls_ok_iff w es cs Hrc). exact Hall.
  - apply RunCalls_bytes; assumption.
Qed.

(** C9. From a writer whose cursor is inside the block, as both constructors
    make it, every sequence of calls of [AddRecord] returns, so none of the
    assertions of [AddRecord] and [EmitPhysicalRecord] fails; the cursor is
    never beyond [kBlockSize]; every record that is emitted has a length of
    at most 65535 and ends inside its block. Whenever the switch to a new
    block, in any state in which it returns, calls the file, it is with one
    append of the first [leftover] bytes of the literal of 6 zeroes, where
    [leftover] is between 1 and 6: the slice is [leftover] bytes long and
    does not reach beyond the literal. *)
Theorem assertions_hold (w : Writer) (slices : list (list byte)) :
  0 <= block_offset_ w < kBlockSize ->
  (exists ss w' es,
     AddRecords w slices = Ret (ss, w', es) /\
     0 <= block_offset_ w' <= kBlockSize /\
     Forall (fun e => 0 <= e_offset e /\
                      len (e_payload e) <= 65535 /\
                      e_offset e + kHeaderSize + len (e_payload e)
                      <= kBlockSize) es) /\
  (forall w1 w2 : RWriter,
     SwitchBlock w1 = Ret w2 ->
     let leftover := kBlockSize - block_offset_ w1 in
     0 <= leftover /\
     exists tr,
       calls (dest_ w2) = calls (dest_ w1) ++ tr /\
       (tr = [] \/
        exists s0,
          tr = [CAppend (firstn (Z.to_nat leftover) trailer_literal) s0] /\
          1 <= leftover <= 6 /\
          (Z.to_nat leftover <= List.length trailer_literal)%nat /\
          len (firstn (Z.to_nat leftover) trailer_literal) = leftover /\
          firstn (Z.to_nat leftover) trailer_literal =
            repeat x00 (Z.to_nat leftover))) /\
  (forall dest : File, block_offset_ (Writer_new dest) = 0) /\
  (forall (dest : File) dest_length,
     0 <= block_offset_ (Writer_resume dest dest_length) < kBlockSize).
Proof.
  intros Hc. split; [|split; [|split]].
  - destruct (AddRecords_well_placed slices w)
      as (ss & w' & es & H & _ & Hc' & Hwp).
    { unfold cursor_ok. lia. }
    exists ss, w', es. auto.
  - intros w1 w2 Hsw leftover. subst leftover.
    destruct (SwitchBlock_calls Hsw) as (tr & Hcs & Htr).
    apply SwitchBlock_inv in Hsw. destruct Hsw as (Hle & _).
    split; [lia|]. exists tr. split; [exact Hcs|].
    unfold TrailerCalls in Htr.
    destruct (Z.ltb_spec (kBlockSize - block_offset_ w1) kHeaderSize) as [H7|H7];
      destruct (Z.ltb_spec 0 (kBlockSize - block_offset_ w1)) as [H0|H0];
      cbn [andb] in Htr; try (left; exact Htr).
    right. destruct Htr as (s0 & ->). exists s0.
    pose proof (trailer_literal_zeroes (kBlockSize - block_offset_ w1)
                                       (conj H0 H7)) as Hz.
    unfold kHeaderSize in H7.
    split; [rewrite Hz; reflexivity|]. split; [lia|].
    split; [cbn [trailer_literal List.length]; lia|].
    split; [|exact Hz].
    rewrite length_firstn. cbn [trailer_literal List.length]. lia.
  - reflexivity.
  - intros dest dest_length. cbn [Writer_resume block_offset_].
    apply Z.mod_pos_bound. reflexivity.
Qed.

End FragmentsOnFile.

(** ** The writer at work, again *)

Section MoreRuns.

Import Sample.

Local Abbreviation len l := (Z.of_nat (List.length l)).

(** In X1, a file of one block and 100 bytes, whose next append fails. *)
Lemma resumed_record_fits_witness :
  0 <= 32768 + 100 /\
  kHeaderSize + len [x61; x62] <= kBlockSize - (32768 + 100) mod kBlockSize /\
  exists s w' e,
    AddRecord_history (Writer_resume (failing_file [false]) (32768 + 100))
                      [x61; x62] = Ret (s, w', [e]) /\
    e_offset e = (32768 + 100) mod kBlockSize /\
    e_type e = kFullType /\ e_payload e = [x61; x62] /\ e_status e = s /\
    block_offset_ w' =
      (32768 + 100) mod kBlockSize + kHeaderSize + len [x61; x62].
Proof.
  assert (H1 : 0 <= 32768 + 100) by lia.
  assert (H2 : kHeaderSize + len [x61; x62]
               <= kBlockSize - (32768 + 100) mod kBlockSize)
    by (unfold kHeaderSize, kBlockSize; cbn; lia).
  split; [exact H1|]. split; [exact H2|].
  apply (resumed_record_fits (failing_file [false]) (32768 + 100)
                             [x61; x62] H1 H2).
Defined.

Example resumed_record_at_100 :
  match AddRecord_history (Writer_resume empty_file (32768 + 100)) [x61; x62]
  with
  | Ret (s, w', es) =>
      (s, block_offset_ w',
       map (fun e => (e_offset e, e_type e, e_payload e)) es) =
      (OK, 109, [(100, kFullType, [x61; x62])])
  | _ => False
  end.
Proof. vm_compute. reflexivity. Qed.

(** In X2, three bytes with room for one, on a file whose flush of the
    first record fails: a [First] record and nothing else. *)
Lemma AddRecord_record_types_witness :
  0 <= block_offset_ (Writer_resume (failing_file [true; true; false]) 32760)
    <= kBlockSize /\
  exists s w' es,
    AddRecord_history (Writer_resume (failing_file [true; true; false]) 32760)
                      [x61; x62; x63] = Ret (s, w', es) /\
    record_types s (map (@e_type _) es).
Proof.
  assert (H1 : 0 <= block_offset_
                      (Writer_resume (failing_file [true; true; false]) 32760)
               <= kBlockSize)
    by (unfold kBlockSize; cbn; lia).
  split; [exact H1|].
  apply (AddRecord_record_types
           (Writer_resume (failing_file [true; true; false]) 32760)
           [x61; x62; x63] H1).
Defined.

Example first_without_last :
  match AddRecord_history (Writer_resume (failing_file [true; true; false]) 32760)
                          [x61; x62; x63]
  with
  | Ret (s, w', es) => (s, map (@e_type _) es) = (IOError, [kFirstType])
  | _ => False
  end.
Proof. vm_compute. reflexivity. Qed.

(** In X3, three calls, one of them with the empty slice. *)
Lemma never_zero_type_witness :
  0 <= block_offset_ (Writer_resume (failing_file [false]) 32765)
    <= kBlockSize /\
  exists ss w' es,
    AddRecords (Writer_resume (failing_file [false]) 32765)
               [[x61]; []; [x62; x63]] = Ret (ss, w', es) /\
    List.length ss = 3%nat /\
    (3 <= List.length es)%nat /\
    Forall (fun e => e_type e <> kZeroType) es.
Proof.
  assert (H1 : 0 <= block_offset_ (Writer_resume (failing_file [false]) 32765)
               <= kBlockSize)
    by (unfold kBlockSize; cbn; lia).
  split; [exact H1|].
  apply (never_zero_type [[x61]; []; [x62; x63]]
           (Writer_resume (failing_file [false]) 32765) H1).
Defined.

(** In X4, three bytes with room for one in the block. *)
Lemma fragment_geometry_witness :
  0 <= block_offset_ (Writer_resume empty_file 32760) <= kBlockSize /\
  exists s w' e1 rest es0 e,
    AddRecord_history (Writer_resume empty_file 32760) [x61; x62; x63] =
      Ret (s, w', e1 :: rest) /\
    e1 :: rest = es0 ++ [e] /\
    e_offset e1 = start_offset (Writer_resume empty_file 32760) /\
    Forall fills_block es0 /\
    Forall (fun e' => e_offset e' = 0 /\ 0 < len (e_payload e')) rest /\
    block_offset_ w' = e_offset e + kHeaderSize + len (e_payload e).
Proof.
  assert (H1 : 0 <= block_offset_ (Writer_resume empty_file 32760)
               <= kBlockSize)
    by (unfold kBlockSize; cbn; lia).
  split; [exact H1|].
  destruct (fragment_geometry (Writer_resume empty_file 32760)
                              [x61; x62; x63] H1)
    as (s & w' & e1 & rest & es0 & e & E & Hes & Ho & Hf & Hl & _ & Hc).
  exists s, w', e1, rest, es0, e. auto 7.
Defined.

(** In X9, the same call: two records for 3 bytes with room for one. *)
Lemma AddRecord_count_witness :
  exists s w' es,
    0 <= block_offset_ (Writer_resume empty_file 32760) /\
    avail_at (Writer_resume empty_file 32760) < len [x61; x62; x63] /\
    AddRecord_history (Writer_resume empty_file 32760) [x61; x62; x63] =
      Ret (s, w', es) /\
    ok s = true /\
    (len es - 2) * (kBlockSize - kHeaderSize)
      < len [x61; x62; x63] - avail_at (Writer_resume empty_file 32760)
      <= (len es - 1) * (kBlockSize - kHeaderSize).
Proof.
  assert (H0 : 0 <= block_offset_ (Writer_resume empty_file 32760))
    by (cbn; lia).
  assert (H1 : avail_at (Writer_resume empty_file 32760)
               < len [x61; x62; x63]) by (vm_compute; reflexivity).
  assert (H2 : exists s w' es,
             AddRecord_history (Writer_resume empty_file 32760)
                               [x61; x62; x63] = Ret (s, w', es) /\
             ok s = true)
    by (vm_compute; eexists _, _, _; split; reflexivity).
  destruct H2 as (s & w' & es & H2 & Hok).
  exists s, w', es.
  split; [exact H0|]. split; [exact H1|]. split; [exact H2|].
  split; [exact Hok|].
  exact (AddRecord_count _ _ _ _ _ H0 H1 H2 Hok).
Defined.

(** In X11, two calls on a fresh writer. *)
Lemma type_crc_unchanged_witness :
  exists ss w' es,
    AddRecords (Writer_new empty_file) [[x61]; [x62]] = Ret (ss, w', es) /\
    type_crc_ w' = type_crc_ (Writer_new empty_file) /\
    (type_crc_ (Writer_new empty_file) = InitTypeCrc ->
     forall t, type_crc_at w' t = Value [char_of_Z (RecordType_code t)]).
Proof.
  assert (H : exists ss w' es,
            AddRecords (Writer_new empty_file) [[x61]; [x62]] =
            Ret (ss, w', es))
    by (vm_compute; eexists _, _, _; reflexivity).
  destruct H as (ss & w' & es & H).
  exists ss, w', es. split; [exact H|].
  exact (type_crc_unchanged _ _ _ _ _ H).
Defined.

(** In X5 and X6, a writer with 3 bytes left in its block, on a file whose
    first call, the append of the trailer, fails. *)
Lemma AddRecord_calls_witness :
  0 <= block_offset_ (Writer_resume (log_failing [false]) 32765)
    <= kBlockSize /\
  exists s w' es tr cs,
    AddRecord_history (Writer_resume (log_failing [false]) 32765) [x61] =
      Ret (s, w', es) /\
    calls (dest_ w') = [] ++ tr ++ cs /\
    TrailerCalls (Writer_resume (log_failing [false]) 32765) tr /\
    RunCalls (Writer_resume (log_failing [false]) 32765) es cs.
Proof.
  assert (H1 : 0 <= block_offset_ (Writer_resume (log_failing [false]) 32765)
               <= kBlockSize)
    by (unfold kBlockSize; cbn; lia).
  split; [exact H1|].
  apply (AddRecord_calls (Writer_resume (log_failing [false]) 32765)
                         [x61] H1).
Defined.

Lemma AddRecord_ok_iff_witness :
  0 <= block_offset_ (Writer_resume (log_failing [false]) 32765)
    <= kBlockSize /\
  exists s w' tr cs,
    AddRecord (Writer_resume (log_failing [false]) 32765) [x61] =
      Ret (s, w') /\
    calls (dest_ w') = [] ++ tr ++ cs /\
    TrailerCalls (Writer_resume (log_failing [false]) 32765) tr /\
    (ok s = true <->
     Forall (fun c : SinkCall Status => ok (call_status c) = true) cs).
Proof.
  assert (H1 : 0 <= block_offset_ (Writer_resume (log_failing [false]) 32765)
               <= kBlockSize)
    by (unfold kBlockSize; cbn; lia).
  split; [exact H1|].
  apply (AddRecord_ok_iff (Writer_resume (log_failing [false]) 32765)
                          [x61] H1).
Defined.

Example failed_trailer_is_not_reported :
  match AddRecord (Writer_resume (log_failing [false]) 32765) [x61] with
  | Ret (s, w') =>
      (s, map (@call_status _) (calls (dest_ w')),
       written (inner (dest_ w'))) =
      (OK, [IOError; OK; OK; OK],
       header_bytes (Mask (Extend (Value [x01]) [x61])) 1 1 ++ [x61])
  | _ => False
  end.
Proof. vm_compute. reflexivity. Qed.

(** In X7, X8 and X10, a file in memory that holds 32765 bytes. *)
Lemma AddRecord_image_witness :
  @always_succeeds Status _ MemFile _ /\
  0 <= block_offset_ (Writer_resume mem0 32765) <= kBlockSize /\
  type_crc_ (Writer_resume mem0 32765) = InitTypeCrc /\
  exists s w' es cs,
    AddRecord_history (Writer_resume mem0 32765) [x61; x62] =
      Ret (s, w', es) /\
    ok s = true /\
    calls (dest_ w') = [] ++ cs /\
    appended cs =
      trailer_bytes (Writer_resume mem0 32765) ++ flat_map record_image es /\
    concat (map (@e_payload _) es) = [x61; x62].
Proof.
  assert (H1 : @always_succeeds Status _ MemFile _)
    by (split; intros; reflexivity).
  assert (H2 : 0 <= block_offset_ (Writer_resume mem0 32765) <= kBlockSize)
    by (unfold kBlockSize; cbn; lia).
  split; [exact H1|]. split; [exact H2|]. split; [reflexivity|].
  apply (AddRecord_image (Writer_resume mem0 32765) [x61; x62] H1 H2 eq_refl).
Defined.

Example image_after_trailer :
  match AddRecord_history (Writer_resume mem0 32765) [x61; x62] with
  | Ret (s, w', es) =>
      inner (dest_ w') =
      [x00; x00; x00] ++
      header_bytes (Mask (Extend (Value [x01]) [x61; x62])) 2 1 ++ [x61; x62]
  | _ => False
  end.
Proof. vm_compute. reflexivity. Qed.

Lemma cursor_follows_file_witness :
  @always_succeeds Status _ MemFile _ /\
  0 <= block_offset_ (Writer_resume mem0 32765) <= kBlockSize /\
  exists ss w' es cs k,
    AddRecords (Writer_resume mem0 32765) [[x61]; []; [x62; x63]] =
      Ret (ss, w', es) /\
    Forall (fun s => ok s = true) ss /\
    calls (dest_ w') = [] ++ cs /\
    0 <= k /\
    block_offset_ (Writer_resume mem0 32765) + len (appended cs) =
      k * kBlockSize + block_offset_ w' /\
    (block_offset_ (Writer_resume mem0 32765) + len (appended cs))
      mod kBlockSize = block_offset_ w' mod kBlockSize.
Proof.
  assert (H1 : @always_succeeds Status _ MemFile _)
    by (split; intros; reflexivity).
  assert (H2 : 0 <= block_offset_ (Writer_resume mem0 32765) <= kBlockSize)
    by (unfold kBlockSize; cbn; lia).
  split; [exact H1|]. split; [exact H2|].
  apply (cursor_follows_file [[x61]; []; [x62; x63]]
           (Writer_resume mem0 32765) H1 H2).
Defined.

Lemma AddRecord_overhead_witness :
  @always_succeeds Status _ MemFile _ /\
  0 <= block_offset_ (Writer_resume mem0 32765) <= kBlockSize /\
  exists s w' es cs,
    AddRecord_history (Writer_resume mem0 32765) [x61; x62] =
      Ret (s, w', es) /\
    calls (dest_ w') = [] ++ cs /\
    len (appended cs) =
      len (trailer_bytes (Writer_resume mem0 32765))
      + kHeaderSize * len es + len [x61; x62] /\
    len (trailer_bytes (Writer_resume mem0 32765)) < kHeaderSize.
Proof.
  assert (H1 : @always_succeeds Status _ MemFile _)
    by (split; intros; reflexivity).
  assert (H2 : 0 <= block_offset_ (Writer_resume mem0 32765) <= kBlockSize)
    by (unfold kBlockSize; cbn; lia).
  split; [exact H1|]. split; [exact H2|].
  apply (AddRecord_overhead (Writer_resume mem0 32765) [x61; x62] H1 H2).
Defined.

(** In C3, three bytes with room for one in the block, on a recorded
    file. *)
Lemma AddRecord_fragments_witness :
  0 <= block_offset_ (Writer_resume log0 32760) <= kBlockSize /\
  avail_at (Writer_resume log0 32760) < len [x61; x62; x63] /\
  exists s w' es tr cs,
    AddRecord_history (Writer_resume log0 32760) [x61; x62; x63] =
      Ret (s, w', es) /\
    calls (dest_ w') = [] ++ tr ++ cs /\
    TrailerCalls (Writer_resume log0 32760) tr /\
    RunCalls (Writer_resume log0 32760) es cs /\
    (ok s = true ->
     (exists k,
        map (@e_type _) es =
        kFirstType :: repeat kMiddleType k ++ [kLastType]) /\
     concat (map (@e_payload _) es) = [x61; x62; x63] /\
     Forall (fun c : SinkCall Status => ok (call_status c) = true) cs).
Proof.
  assert (H1 : 0 <= block_offset_ (Writer_resume log0 32760) <= kBlockSize)
    by (unfold kBlockSize; cbn; lia).
  assert (H2 : avail_at (Writer_resume log0 32760) < len [x61; x62; x63])
    by (vm_compute; reflexivity).
  split; [exact H1|]. split; [exact H2|].
  destruct (AddRecord_fragments (Writer_resume log0 32760) [x61; x62; x63]
                                H1 H2)
    as (s & w' & es & tr & cs & E & _ & Hcs & Htr & Hrc & _ & Hok).
  exists s, w', es, tr, cs.
  split; [exact E|]. split; [exact Hcs|]. split; [exact Htr|].
  split; [exact Hrc|]. intros Hs.
  destruct (Hok Hs) as (Hty & Hp & Hall & _). auto.
Defined.

Example fragments_on_the_file :
  match AddRecord_history (Writer_resume log0 32760) [x61; x62; x63] with
  | Ret (s, w', es) =>
      (s, block_offset_ w', map (@e_type _) es,
       map (fun c => match c with
                     | CAppend data _ => Some (List.length data)
                     | CFlush _ => None
                     end) (calls (dest_ w')),
       appended (calls (dest_ w'))) =
      (OK, 9, [kFirstType; kLastType],
       [Some 7%nat; Some 1%nat; None; Some 7%nat; Some 2%nat; None],
       header_bytes (Mask (Extend (Value [x02]) [x61])) 1 2 ++ [x61] ++
       header_bytes (Mask (Extend (Value [x04]) [x62; x63])) 2 4
       ++ [x62; x63])
  | _ => False
  end.
Proof. vm_compute. reflexivity. Qed.

(** In C9, a resumed writer and four records, on a file that fails twice,
    and the switch of block with 3 bytes left. *)
Lemma assertions_hold_witness :
  0 <= block_offset_ (Writer_resume (failing_file [true; false; false])
                                    (32768 + 32763)) < kBlockSize /\
  (exists ss w' es,
     AddRecords (Writer_resume (failing_file [true; false; false])
                               (32768 + 32763))
                [[x61]; []; [x62; x63]; []] = Ret (ss, w', es) /\
     0 <= block_offset_ w' <= kBlockSize /\
     Forall (fun e => 0 <= e_offset e /\
                      len (e_payload e) <= 65535 /\
                      e_offset e + kHeaderSize + len (e_payload e)
                      <= kBlockSize) es) /\
  (exists w2 tr,
     SwitchBlock (Writer_resume (log_failing [false]) 32765) = Ret w2 /\
     calls (dest_ w2) = [] ++ tr /\
     (tr = [] \/
      exists s0,
        tr = [CAppend (firstn (Z.to_nat (kBlockSize - 32765)) trailer_literal)
                      s0] /\
        1 <= kBlockSize - 32765 <= 6)).
Proof.
  assert (H1 : 0 <= block_offset_
                      (Writer_resume (failing_file [true; false; false])
                                     (32768 + 32763)) < kBlockSize)
    by (unfold kBlockSize; cbn; lia).
  split; [exact H1|].
  destruct (assertions_hold
              (Writer_resume (failing_file [true; false; false])
                             (32768 + 32763))
              [[x61]; []; [x62; x63]; []] H1) as (Ha & Hb & _).
  split; [exact Ha|].
  assert (Hsw : exists w2,
             SwitchBlock (Writer_resume (log_failing [false]) 32765) = Ret w2)
    by (vm_compute; eexists; reflexivity).
  destruct Hsw as (w2 & Hsw).
  destruct (Hb _ _ Hsw) as (_ & tr & Hcs & Htr).
  exists w2, tr. split; [exact Hsw|]. split; [exact Hcs|].
  destruct Htr as [Htr | (s0 & Htr & Hr & _)]; [left; exact Htr|].
  right. exists s0. split; [exact Htr|exact Hr].
Defined.

Example trailer_of_three_zeroes :
  match SwitchBlock (Writer_resume (log_failing [false]) 32765) with
  | Ret w2 => (block_offset_ w2, calls (dest_ w2)) =
              (0, [CAppend [x00; x00; x00] IOError])
  | _ => False
  end.
Proof. vm_compute. reflexivity. Qed.

End MoreRuns.
